(** * App.js: the client-side synchronization core, embedded in Rocq

    The component of [src/App.js] keeps three pieces of React state
    ([messages], [carNumber], [image]) and reacts to user gestures, to
    frames of the push channel and to the completion of the requests it
    issued.  The handlers are embedded as programs of a small free monad
    whose nodes are the effects the source performs (alerts, console
    output, state setters, the clock, awaited promises); an event loop
    runs them to their next suspension point, so the interleavings that
    [async]/[await] allows are part of the model. *)

From Stdlib Require Import String Ascii List ZArith NArith Bool Lia.
Import ListNotations.
Local Open Scope Z_scope.

(** ** JavaScript strings

    A JavaScript string is a sequence of UTF-16 code units; [length],
    [slice] and comparison all work on code units.  A code unit is kept as
    its number. *)

Definition jstring : Type := list N.

(** The string written by a source literal (ASCII literals only). *)
Definition js (s : string) : jstring :=
  map N_of_ascii (list_ascii_of_string s).

Fixpoint jstring_eqb (a b : jstring) : bool :=
  match a, b with
  | [], [] => true
  | x :: a', y :: b' => N.eqb x y && jstring_eqb a' b'
  | _, _ => false
  end.

(** [ToBoolean] on a string: every string but the empty one is truthy. *)
Definition truthy (s : jstring) : bool :=
  match s with [] => false | _ :: _ => true end.

(** [ToBoolean] on a value that is [null] or a string. *)
Definition truthy_opt (o : option jstring) : bool :=
  match o with None => false | Some s => truthy s end.

(** [String.prototype.slice(start, end)]: negative positions count from the
    end, both are clamped to the string, an empty span gives [""]. *)
Definition clamp_index (len i : Z) : Z :=
  if i <? 0 then Z.max (len + i) 0 else Z.min i len.

Definition String_slice (s : jstring) (start stop : Z) : jstring :=
  let len := Z.of_nat (length s) in
  let from := clamp_index len start in
  let to := clamp_index len stop in
  let span := Z.max (to - from) 0 in
  firstn (Z.to_nat span) (skipn (Z.to_nat from) s).

(** ** JSON values and [JSON.parse] *)

Module JSON.

#[local] Set Warnings "-register-all".

(** A number keeps the literal it was written with: the conversion to an
    IEEE double is not modelled, and nothing in the component reads one. *)
Inductive json : Type :=
| JNull
| JBool (b : bool)
| JNumber (literal : jstring)
| JString (s : jstring)
| JArray (items : list json)
| JObject (members : list (jstring * json)).

(** Defining a property: a key that is already there keeps its place and
    takes the new value, a new key goes last.  (An engine lists the keys
    that look like array indices first; nothing here depends on the order
    of the keys.) *)
Fixpoint obj_set (k : jstring) (v : json) (m : list (jstring * json))
  : list (jstring * json) :=
  match m with
  | [] => [(k, v)]
  | (k', v') :: m' =>
      if jstring_eqb k k' then (k, v) :: m' else (k', v') :: obj_set k v m'
  end.

Inductive result (A : Type) : Type :=
| Parsed (a : A) (rest : jstring)
| Malformed
| OutOfFuel.
Arguments Parsed {A} a rest.
Arguments Malformed {A}.
Arguments OutOfFuel {A}.

Definition is_ws (c : N) : bool :=
  (c =? 32)%N || (c =? 9)%N || (c =? 10)%N || (c =? 13)%N.

Fixpoint skip_ws (s : jstring) : jstring :=
  match s with
  | c :: r => if is_ws c then skip_ws r else s
  | [] => []
  end.

Definition is_digit (c : N) : bool := (48 <=? c)%N && (c <=? 57)%N.

Definition hex_value (c : N) : option N :=
  if is_digit c then Some (c - 48)%N
  else if (97 <=? c)%N && (c <=? 102)%N then Some (c - 87)%N
  else if (65 <=? c)%N && (c <=? 70)%N then Some (c - 55)%N
  else None.

Definition hex4 (a b c d : N) : option N :=
  match hex_value a, hex_value b, hex_value c, hex_value d with
  | Some x, Some y, Some z, Some w => Some (((x * 16 + y) * 16 + z) * 16 + w)%N
  | _, _, _, _ => None
  end.

(** The characters of a string literal after its opening quote, up to and
    without the closing one.  [acc] holds the decoded prefix, reversed. *)
Fixpoint string_body (s : jstring) (acc : jstring) : result jstring :=
  match s with
  | [] => Malformed
  | c :: r =>
      if (c =? 34)%N then Parsed (rev acc) r
      else if (c <? 32)%N then Malformed
      else if (c =? 92)%N then
        match r with
        | e :: r1 =>
            if (e =? 34)%N then string_body r1 (34%N :: acc)
            else if (e =? 92)%N then string_body r1 (92%N :: acc)
            else if (e =? 47)%N then string_body r1 (47%N :: acc)
            else if (e =? 98)%N then string_body r1 (8%N :: acc)
            else if (e =? 102)%N then string_body r1 (12%N :: acc)
            else if (e =? 110)%N then string_body r1 (10%N :: acc)
            else if (e =? 114)%N then string_body r1 (13%N :: acc)
            else if (e =? 116)%N then string_body r1 (9%N :: acc)
            else if (e =? 117)%N then
              match r1 with
              | h1 :: h2 :: h3 :: h4 :: r2 =>
                  match hex4 h1 h2 h3 h4 with
                  | Some u => string_body r2 (u :: acc)
                  | None => Malformed
                  end
              | _ => Malformed
              end
            else Malformed
        | [] => Malformed
        end
      else string_body r (c :: acc)
  end.

Fixpoint take_digits (s : jstring) : jstring * jstring :=
  match s with
  | c :: r =>
      if is_digit c then let '(d, r') := take_digits r in (c :: d, r')
      else ([], s)
  | [] => ([], [])
  end.

(** A number literal: an optional minus sign, an integer part without a
    leading zero (or a lone zero), an optional fraction (a dot and at least
    one digit), an optional exponent (e or E, an optional sign, at least one
    digit). *)
Definition number (s : jstring) : result jstring :=
  let '(sign, s1) :=
    match s with
    | c :: r => if (c =? 45)%N then ([c], r) else ([], s)
    | [] => ([], s)
    end in
  let '(int, s2) := take_digits s1 in
  match int with
  | [] => Malformed
  | d :: ds =>
      if (d =? 48)%N && truthy ds then Malformed
      else
        let frac :=
          match s2 with
          | c :: r =>
              if (c =? 46)%N then
                match take_digits r with
                | ([], _) => None
                | (f, r') => Some (c :: f, r')
                end
              else Some ([], s2)
          | [] => Some ([], s2)
          end in
        match frac with
        | None => Malformed
        | Some (f, s3) =>
            let expo :=
              match s3 with
              | c :: r =>
                  if (c =? 101)%N || (c =? 69)%N then
                    let '(sg, r1) :=
                      match r with
                      | g :: r0 =>
                          if (g =? 43)%N || (g =? 45)%N then ([g], r0) else ([], r)
                      | [] => ([], r)
                      end in
                    match take_digits r1 with
                    | ([], _) => None
                    | (e, r') => Some (c :: sg ++ e, r')
                    end
                  else Some ([], s3)
              | [] => Some ([], s3)
              end in
            match expo with
            | None => Malformed
            | Some (e, s4) => Parsed (sign ++ int ++ f ++ e) s4
            end
        end
  end.

(** [keyword w v s]: the input starts with the word [w]. *)
Fixpoint keyword (w : jstring) (v : json) (s : jstring) : result json :=
  match w with
  | [] => Parsed v s
  | c :: w' =>
      match s with
      | d :: s' => if (c =? d)%N then keyword w' v s' else Malformed
      | [] => Malformed
      end
  end.

(** Recursive descent over the grammar of ECMA-404.  Every call spends one
    unit of fuel; [parse] hands over enough of it ([fuel_enough] below). *)
Fixpoint value (fuel : nat) (s : jstring) {struct fuel} : result json :=
  match fuel with
  | O => OutOfFuel
  | S n =>
      match skip_ws s with
      | [] => Malformed
      | c :: r =>
          if (c =? 34)%N then
            match string_body r [] with
            | Parsed str r' => Parsed (JString str) r'
            | Malformed => Malformed
            | OutOfFuel => OutOfFuel
            end
          else if (c =? 91)%N then
            match skip_ws r with
            | d :: r' => if (d =? 93)%N then Parsed (JArray []) r' else elements n [] r
            | [] => Malformed
            end
          else if (c =? 123)%N then
            match skip_ws r with
            | d :: r' => if (d =? 125)%N then Parsed (JObject []) r' else members n [] r
            | [] => Malformed
            end
          else if (c =? 110)%N then keyword (js "null") JNull (c :: r)
          else if (c =? 116)%N then keyword (js "true") (JBool true) (c :: r)
          else if (c =? 102)%N then keyword (js "false") (JBool false) (c :: r)
          else
            match number (c :: r) with
            | Parsed lit r' => Parsed (JNumber lit) r'
            | Malformed => Malformed
            | OutOfFuel => OutOfFuel
            end
      end
  end
with elements (fuel : nat) (acc : list json) (s : jstring) {struct fuel}
  : result json :=
  match fuel with
  | O => OutOfFuel
  | S n =>
      match value n s with
      | Parsed v r =>
          match skip_ws r with
          | d :: r' =>
              if (d =? 44)%N then elements n (v :: acc) r'
              else if (d =? 93)%N then Parsed (JArray (rev (v :: acc))) r'
              else Malformed
          | [] => Malformed
          end
      | Malformed => Malformed
      | OutOfFuel => OutOfFuel
      end
  end
with members (fuel : nat) (acc : list (jstring * json)) (s : jstring)
  {struct fuel} : result json :=
  match fuel with
  | O => OutOfFuel
  | S n =>
      match skip_ws s with
      | q :: r =>
          if (q =? 34)%N then
            match string_body r [] with
            | Parsed k r1 =>
                match skip_ws r1 with
                | c :: r2 =>
                    if (c =? 58)%N then
                      match value n r2 with
                      | Parsed v r3 =>
                          match skip_ws r3 with
                          | d :: r4 =>
                              if (d =? 44)%N then members n (obj_set k v acc) r4
                              else if (d =? 125)%N
                                   then Parsed (JObject (obj_set k v acc)) r4
                              else Malformed
                          | [] => Malformed
                          end
                      | Malformed => Malformed
                      | OutOfFuel => OutOfFuel
                      end
                    else Malformed
                | [] => Malformed
                end
            | Malformed => Malformed
            | OutOfFuel => OutOfFuel
            end
          else Malformed
      | [] => Malformed
      end
  end.

(** A whole text: one value, then nothing but white space. *)
Definition document (fuel : nat) (text : jstring) : result json :=
  match value fuel text with
  | Parsed v r =>
      match skip_ws r with
      | [] => Parsed v []
      | _ :: _ => Malformed
      end
  | Malformed => Malformed
  | OutOfFuel => OutOfFuel
  end.

Definition fuel_for (text : jstring) : nat := S (2 * length text).

(** [JSON.parse(text)]: the value, or [None] where the source throws a
    [SyntaxError]. *)
Definition parse (text : jstring) : option json :=
  match document (fuel_for text) text with
  | Parsed v _ => Some v
  | Malformed => None
  | OutOfFuel => None
  end.

(** The rest of a parsed input is shorter than the input, and the fuel
    did not run out. *)
Definition consumed {A : Type} (s : jstring) (res : result A) : Prop :=
  match res with
  | Parsed _ r => (length r < length s)%nat
  | Malformed => True
  | OutOfFuel => False
  end.

End JSON.
Export JSON(json(..)).

(** Test inputs are written with ['] for the double quote. *)
Definition quoted (s : string) : jstring :=
  map (fun c => if (c =? 39)%N then 34%N else c) (js s).

(** ** [JSON.stringify] *)

Module Stringify.

Definition hex_digit (d : N) : N :=
  if (d <? 10)%N then (48 + d)%N else (87 + d)%N.

(** The escape of one code unit as four lower-case hexadecimal digits. *)
Definition unicode_escape (c : N) : jstring :=
  [92; 117; hex_digit ((c / 4096) mod 16); hex_digit ((c / 256) mod 16);
   hex_digit ((c / 16) mod 16); hex_digit (c mod 16)]%N.

Definition is_high_surrogate (c : N) : bool := (55296 <=? c)%N && (c <=? 56319)%N.
Definition is_low_surrogate (c : N) : bool := (56320 <=? c)%N && (c <=? 57343)%N.

(** A code unit that is not part of a surrogate pair. *)
Definition quote_unit (c : N) : jstring :=
  if (c =? 8)%N then js "\b"
  else if (c =? 9)%N then js "\t"
  else if (c =? 10)%N then js "\n"
  else if (c =? 12)%N then js "\f"
  else if (c =? 13)%N then js "\r"
  else if (c =? 34)%N then [92; 34]%N
  else if (c =? 92)%N then [92; 92]%N
  else if (c <? 32)%N || is_high_surrogate c || is_low_surrogate c
       then unicode_escape c
  else [c].

(** [QuoteJSONString] between the quotes: the string is read by code points,
    so a high surrogate followed by a low one is copied as it is and a lone
    surrogate is escaped. *)
Fixpoint quote_body (s : jstring) : jstring :=
  match s with
  | [] => []
  | c :: r =>
      if is_high_surrogate c then
        match r with
        | d :: r' =>
            if is_low_surrogate d then c :: d :: quote_body r'
            else quote_unit c ++ quote_body r
        | [] => quote_unit c
        end
      else quote_unit c ++ quote_body r
  end.

Definition quote (s : jstring) : jstring := 34%N :: quote_body s ++ [34%N].

Fixpoint join (parts : list jstring) : jstring :=
  match parts with
  | [] => []
  | [p] => p
  | p :: ps => p ++ 44%N :: join ps
  end.

Fixpoint stringify (v : json) : jstring :=
  match v with
  | JNull => js "null"
  | JBool true => js "true"
  | JBool false => js "false"
  | JNumber literal => literal
  | JString s => quote s
  | JArray items => 91%N :: join (map stringify items) ++ [93%N]
  | JObject members =>
      123%N :: join (map (fun kv => quote (fst kv) ++ 58%N :: stringify (snd kv))
                         members) ++ [125%N]
  end.

End Stringify.

(** ** [Date.prototype.toISOString]

    A time value is a number of milliseconds since the epoch, UTC.  The
    value of [new Date()] is always a valid one, so the [RangeError] of an
    invalid date has no place here. *)

Module Date.

Definition msPerDay : Z := 86400000.

(** Year, month (1 to 12) and day of the month of a day number counted from
    1970-01-01, in the proleptic Gregorian calendar. *)
Definition civil_from_days (day : Z) : Z * Z * Z :=
  let z := day + 719468 in
  let era := z / 146097 in
  let doe := z - era * 146097 in
  let yoe := (doe - doe / 1460 + doe / 36524 - doe / 146096) / 365 in
  let doy := doe - (365 * yoe + yoe / 4 - yoe / 100) in
  let mp := (5 * doy + 2) / 153 in
  let d := doy - (153 * mp + 2) / 5 + 1 in
  let m := if mp <? 10 then mp + 3 else mp - 9 in
  let y := yoe + era * 400 + (if m <=? 2 then 1 else 0) in
  (y, m, d).

Definition digit (n : Z) : N := (48 + Z.to_N (n mod 10))%N.

(** [n] written with [width] decimal digits, leading zeros included. *)
Fixpoint pad (width : nat) (n : Z) : jstring :=
  match width with
  | O => []
  | S w => pad w (n / 10) ++ [digit n]
  end.

(** Four digits for the years 0 to 9999, a sign and six digits outside. *)
Definition year_field (y : Z) : jstring :=
  if (0 <=? y) && (y <=? 9999) then pad 4 y
  else (if y <? 0 then 45%N else 43%N) :: pad 6 (Z.abs y).

Definition toISOString (t : Z) : jstring :=
  let '(y, m, d) := civil_from_days (t / msPerDay) in
  let ms := t mod msPerDay in
  year_field y ++ js "-" ++ pad 2 m ++ js "-" ++ pad 2 d ++ js "T"
    ++ pad 2 (ms / 3600000) ++ js ":" ++ pad 2 (ms / 60000 mod 60) ++ js ":"
    ++ pad 2 (ms / 1000 mod 60) ++ js "." ++ pad 3 (ms mod 1000) ++ js "Z".

End Date.

(** The shape of a string: [d] in the template stands for a decimal digit,
    every other character for itself. *)
Fixpoint shaped (template s : jstring) : bool :=
  match template, s with
  | [], [] => true
  | p :: template', c :: s' =>
      (if (p =? 100)%N then JSON.is_digit c else (p =? c)%N) && shaped template' s'
  | _, _ => false
  end.

(** An ISO-8601 instant as ECMAScript writes it: date and time in UTC to the
    millisecond, the year with four digits, or with a sign and six. *)
Definition ISO_instant (s : jstring) : bool :=
  shaped (js "dddd-dd-ddTdd:dd:dd.dddZ") s
  || shaped (js "+dddddd-dd-ddTdd:dd:dd.dddZ") s
  || shaped (js "-dddddd-dd-ddTdd:dd:dd.dddZ") s.

(** ** The values the handlers exchange with their host *)

(** A thrown value: all the source throws or catches are [Error] objects. *)
Record Error : Type := mkError { name : jstring; message : jstring }.

Definition SyntaxError (msg : string) : Error := mkError (js "SyntaxError") (js msg).
Definition new_Error (msg : string) : Error := mkError (js "Error") (js msg).

(** The response of [fetch]: its status and the text of its body. *)
Record Response : Type := mkResponse { status : Z; text : jstring }.

(** [response.ok] *)
Definition ok (r : Response) : bool := (200 <=? status r) && (status r <=? 299).

(** An entry of a [FormData]: a string, or React Native's file reference
    [{uri, type, name}]. *)
Inductive FormValue : Type :=
| FormString (s : jstring)
| FormFile (uri : option jstring) (type name : jstring).

Definition FormData : Type := list (jstring * FormValue).

Definition append (fd : FormData) (field : jstring) (v : FormValue) : FormData :=
  fd ++ [(field, v)].

Inductive Body : Type :=
| MultipartBody (fd : FormData)
| TextBody (s : jstring).

Record RequestInit : Type :=
  mkInit { method : jstring; headers : list (jstring * jstring); body : Body }.

Record PermissionResponse : Type := mkPermission { permission : jstring }.

Record Asset : Type := mkAsset { uri : jstring }.
Record ImagePickerResult : Type := mkPicked { canceled : bool; assets : list Asset }.

(** What [console.log] and [console.error] are given after their label. *)
Inductive Printed : Type :=
| PString (s : jstring)
| PNull
| PJson (v : json)
| PError (e : Error).

Definition print_opt (o : option jstring) : Printed :=
  match o with Some s => PString s | None => PNull end.

(** How a promise ends. *)
Inductive Settled (T : Type) : Type :=
| Fulfilled (v : T)
| Rejected (e : Error).
Arguments Fulfilled {T} v.
Arguments Rejected {T} e.

(** The promises the source awaits. *)
Inductive Call : Type -> Type :=
| fetch (url : jstring) (init : RequestInit) : Call Response
| response_json (r : Response) : Call json
| requestCameraPermissionsAsync : Call PermissionResponse
| requestMediaLibraryPermissionsAsync : Call PermissionResponse
| getMediaLibraryPermissionsAsync : Call PermissionResponse
| getCameraPermissionsAsync : Call PermissionResponse
| launchImageLibraryAsync : Call ImagePickerResult
| launchCameraAsync : Call ImagePickerResult.

(** The effects that return at once. *)
Inductive Op : Type -> Type :=
| Alert_alert (title msg : jstring) : Op unit
| console_log (label : jstring) (args : list Printed) : Op unit
| console_error (label : jstring) (args : list Printed) : Op unit
| setMessages (update : list json -> list json) : Op unit
| setCarNumber (v : jstring) : Op unit
| setImage (v : option jstring) : Op unit
| new_Date : Op Z
| new_WebSocket (url : jstring) : Op unit
| ws_close : Op unit.

(** ** Handler programs *)

Inductive Prog (A : Type) : Type :=
| Ret (a : A)
| Throw (e : Error)
| Act {T : Type} (o : Op T) (k : T -> Prog A)
| Await {T : Type} (c : Call T) (k : Settled T -> Prog A).
Arguments Ret {A} a.
Arguments Throw {A} e.
Arguments Act {A T} o k.
Arguments Await {A T} c k.

Fixpoint bind {A B : Type} (p : Prog A) (f : A -> Prog B) : Prog B :=
  match p with
  | Ret a => f a
  | Throw e => Throw e
  | Act o k => Act o (fun x => bind (k x) f)
  | Await c k => Await c (fun s => bind (k s) f)
  end.

(** [try { p } catch (error) { h error }] *)
Fixpoint try_catch {A : Type} (p : Prog A) (h : Error -> Prog A) : Prog A :=
  match p with
  | Ret a => Ret a
  | Throw e => h e
  | Act o k => Act o (fun x => try_catch (k x) h)
  | Await c k => Await c (fun s => try_catch (k s) h)
  end.

Definition act {T : Type} (o : Op T) : Prog T := Act o Ret.

(** [await c]: the value of a fulfilled promise; a rejected one throws. *)
Definition await {T : Type} (c : Call T) : Prog T :=
  Await c (fun s => match s with Fulfilled v => Ret v | Rejected e => Throw e end).

Declare Scope prog_scope.
Delimit Scope prog_scope with prog.
Bind Scope prog_scope with Prog.
Notation "x <- p ;; q" := (bind p (fun x => q))
  (at level 61, p at next level, right associativity) : prog_scope.
Notation "p ;; q" := (bind p (fun _ => q))
  (at level 61, right associativity) : prog_scope.
Notation "'try' p 'catch' e => h" := (try_catch p (fun e => h))
  (at level 62, p at level 61, e name, h at level 61) : prog_scope.
Local Open Scope prog_scope.

(** [JSON.parse(text)] as the source calls it: a malformed text throws. *)
Definition JSON_parse (text : jstring) : Prog json :=
  match JSON.parse text with
  | Some v => Ret v
  | None => Throw (SyntaxError "JSON Parse error")
  end.

(** ** The component *)

Definition SERVER_URL : jstring := js "http://192.168.1.108:8000".
Definition WS_URL : jstring := js "ws://192.168.1.108:8000/ws/mobile_app".

(** The three [useState] cells; [image] is [null] or a uri. *)
Record AppState : Type :=
  mkApp { messages : list json; carNumber : jstring; image : option jstring }.

Definition initial : AppState := mkApp [] [] None.

Module App.

(** The permission request of the mount effect. *)
Definition requestPermissions : Prog unit :=
  try (
    cameraStatus <- await requestCameraPermissionsAsync ;;
    mediaStatus <- await requestMediaLibraryPermissionsAsync ;;
    if negb (jstring_eqb (permission cameraStatus) (js "granted"))
       || negb (jstring_eqb (permission mediaStatus) (js "granted"))
    then
      act (Alert_alert (js "Permission Required")
             (js "Camera and media library permissions are required to use this app."))
    else Ret tt
  ) catch error =>
    act (console_error (js "Error requesting permissions:") [PError error]) ;;
    act (Alert_alert (js "Error") (js "Failed to request permissions")).

Definition connect : Prog unit := act (new_WebSocket WS_URL).

Definition onopen : Prog unit := act (console_log (js "WebSocket Connected") []).

Definition onmessage (event_data : jstring) : Prog unit :=
  data <- JSON_parse event_data ;;
  act (setMessages (fun prev => prev ++ [data])).

Definition onerror (error : Error) : Prog unit :=
  act (console_error (js "WebSocket Error:") [PError error]) ;;
  act (Alert_alert (js "Connection Error") (js "Failed to connect to server")).

Definition onclose : Prog unit := act (console_log (js "WebSocket Disconnected") []).

Definition cleanup : Prog unit := act ws_close.

(** [result.assets[0].uri]: reading a property of [undefined] throws. *)
Definition first_uri (result : ImagePickerResult) : Prog jstring :=
  match assets result with
  | a :: _ => Ret (uri a)
  | [] => Throw (mkError (js "TypeError") (js "Cannot read property 'uri' of undefined"))
  end.

Definition pickImage : Prog unit :=
  try (
    perm <- await getMediaLibraryPermissionsAsync ;;
    if negb (jstring_eqb (permission perm) (js "granted")) then
      act (Alert_alert (js "Permission Required")
             (js "Please grant media library permission to pick images"))
    else
      result <- await launchImageLibraryAsync ;;
      if negb (canceled result) then
        picked <- first_uri result ;;
        act (console_log (js "Image picked successfully:") [PString picked]) ;;
        act (setImage (Some picked))
      else Ret tt
  ) catch error =>
    act (console_error (js "Error picking image:") [PError error]) ;;
    act (Alert_alert (js "Error") (js "Failed to pick image. Please try again.")).

Definition takePhoto : Prog unit :=
  try (
    perm <- await getCameraPermissionsAsync ;;
    if negb (jstring_eqb (permission perm) (js "granted")) then
      act (Alert_alert (js "Permission Required")
             (js "Please grant camera permission to take photos"))
    else
      result <- await launchCameraAsync ;;
      if negb (canceled result) then
        picked <- first_uri result ;;
        act (console_log (js "Photo taken successfully:") [PString picked]) ;;
        act (setImage (Some picked))
      else Ret tt
  ) catch error =>
    act (console_error (js "Error taking photo:") [PError error]) ;;
    act (Alert_alert (js "Error") (js "Failed to take photo. Please try again.")).

(** The form [uploadImage] sends: the file, and the car number only when
    there is one. *)
Definition upload_form (image : option jstring) (carNumber : jstring) : FormData :=
  let formData : FormData := [] in
  let formData := append formData (js "file")
                    (FormFile image (js "image/jpeg") (js "photo.jpg")) in
  if truthy carNumber
  then append formData (js "car_number") (FormString carNumber)
  else formData.

Definition uploadImage (image : option jstring) (carNumber : jstring) : Prog unit :=
  if negb (truthy_opt image) then
    act (Alert_alert (js "Error") (js "Please select an image first"))
  else
    try (
      let formData := upload_form image carNumber in
      act (console_log (js "Uploading image:") [print_opt image]) ;;
      response <- await (fetch (SERVER_URL ++ js "/upload-image/")
                           (mkInit (js "POST") [] (MultipartBody formData))) ;;
      if negb (ok response) then Throw (new_Error "Failed to upload image")
      else
        data <- await (response_json response) ;;
        act (console_log (js "Upload successful:") [PJson data]) ;;
        act (setImage None) ;;
        act (Alert_alert (js "Success") (js "Image uploaded successfully"))
    ) catch error =>
      act (console_error (js "Error uploading image:") [PError error]) ;;
      act (Alert_alert (js "Error") (js "Failed to upload image. Please try again.")).

(** The object [sendCarNumber] hands to [JSON.stringify]. *)
Definition car_number_message (carNumber : jstring) (now : Z) : json :=
  JObject [(js "message", JString (js "Car number submitted: " ++ carNumber));
           (js "timestamp", JString (Date.toISOString now));
           (js "car_number", JString carNumber)].

Definition sendCarNumber (carNumber : jstring) : Prog unit :=
  if negb (truthy carNumber) then
    act (Alert_alert (js "Error") (js "Please enter a car number"))
  else
    try (
      now <- act new_Date ;;
      response <- await (fetch (SERVER_URL ++ js "/messages/")
                           (mkInit (js "POST")
                              [(js "Content-Type", js "application/json")]
                              (TextBody (Stringify.stringify
                                           (car_number_message carNumber now))))) ;;
      if negb (ok response) then Throw (new_Error "Failed to send car number")
      else
        act (setCarNumber []) ;;
        act (Alert_alert (js "Success") (js "Car number sent successfully"))
    ) catch error =>
      act (console_error (js "Error sending car number:") [PError error]) ;;
      act (Alert_alert (js "Error") (js "Failed to send car number. Please try again.")).

(** [onChangeText] of the text input. *)
Definition onChangeText (text : jstring) : Prog unit :=
  act (setCarNumber (String_slice text 0 8)).

End App.

(** ** Running a handler

    What a handler leaves behind for an observer: alerts, console lines,
    requests put on the network, the channel being opened or closed, and an
    exception nobody caught. *)

Inductive Output : Type :=
| Alerted (title msg : jstring)
| Logged (label : jstring) (args : list Printed)
| LoggedError (label : jstring) (args : list Printed)
| Requested (url : jstring) (init : RequestInit)
| Connected (url : jstring)
| Disconnected
| Uncaught (e : Error).

(** A handler stopped at an [await]: the promise and what follows it. *)
Inductive Task : Type :=
| task {T : Type} (c : Call T) (k : Settled T -> Prog unit).

Inductive Status : Type :=
| Finished
| Escaped (e : Error)
| Suspended (t : Task).

(** One effect on the state, with its output and its result. *)
Definition perform {T : Type} (now : Z) (o : Op T) (st : AppState)
  : AppState * list Output * T :=
  match o in Op T return AppState * list Output * T with
  | Alert_alert title msg => (st, [Alerted title msg], tt)
  | console_log label args => (st, [Logged label args], tt)
  | console_error label args => (st, [LoggedError label args], tt)
  | setMessages update =>
      (mkApp (update (messages st)) (carNumber st) (image st), [], tt)
  | setCarNumber v => (mkApp (messages st) v (image st), [], tt)
  | setImage v => (mkApp (messages st) (carNumber st) v, [], tt)
  | new_Date => (st, [], now)
  | new_WebSocket url => (st, [Connected url], tt)
  | ws_close => (st, [Disconnected], tt)
  end.

Definition call_output {T : Type} (c : Call T) : list Output :=
  match c with
  | fetch url init => [Requested url init]
  | _ => []
  end.

(** A handler runs without interruption up to its end or its next
    [await]; [now] is what the clock shows meanwhile. *)
Fixpoint run (now : Z) (p : Prog unit) (st : AppState)
  : AppState * list Output * Status :=
  match p with
  | Ret _ => (st, [], Finished)
  | Throw e => (st, [], Escaped e)
  | Act o k =>
      let '(st1, out1, x) := perform now o st in
      let '(st2, out2, s) := run now (k x) st1 in
      (st2, out1 ++ out2, s)
  | Await c k => (st, call_output c, Suspended (task c k))
  end.

(** ** The event loop *)

(** The host settles every promise but one: [response.json()] is settled
    by the body of the response it reads. *)
Definition Host : Type := forall T : Type, Call T -> Settled T.

Definition settle (host : Host) {T : Type} (c : Call T) : Settled T :=
  match c in Call T return Settled T with
  | response_json r =>
      match JSON.parse (text r) with
      | Some v => Fulfilled v
      | None => Rejected (SyntaxError "JSON Parse error")
      end
  | c' => host _ c'
  end.

Inductive Event : Type :=
| Mount
| Unmount
| WsOpen
| WsMessage (data : jstring)
| WsError (error : Error)
| WsClose
| ChangeText (text : jstring)
| PressTakePhoto
| PressPickImage
| PressUpload
| PressSend
| Settle (i : nat) (host : Host).

Record System : Type :=
  mkSystem { app : AppState; pending : list Task; console : list Output }.

Definition boot : System := mkSystem initial [] [].

(** The handlers an event starts, on the state of the last render.  The
    upload button is rendered only while an image is staged. *)
Definition handlers (ev : Event) (st : AppState) : list (Prog unit) :=
  match ev with
  | Mount => [App.requestPermissions; App.connect]
  | Unmount => [App.cleanup]
  | WsOpen => [App.onopen]
  | WsMessage data => [App.onmessage data]
  | WsError error => [App.onerror error]
  | WsClose => [App.onclose]
  | ChangeText text => [App.onChangeText text]
  | PressTakePhoto => [App.takePhoto]
  | PressPickImage => [App.pickImage]
  | PressUpload =>
      if truthy_opt (image st) then [App.uploadImage (image st) (carNumber st)] else []
  | PressSend => [App.sendCarNumber (carNumber st)]
  | Settle _ _ => []
  end.

Definition aftermath (s : Status) : list Task * list Output :=
  match s with
  | Finished => ([], [])
  | Escaped e => ([], [Uncaught e])
  | Suspended t => ([t], [])
  end.

(** Run one program in the system. *)
Definition spawn (now : Z) (sys : System) (p : Prog unit) : System :=
  let '(st, out, s) := run now p (app sys) in
  let '(ts, esc) := aftermath s in
  mkSystem st (pending sys ++ ts) (console sys ++ out ++ esc).

Fixpoint remove_nth {A : Type} (i : nat) (l : list A) : list A :=
  match i, l with
  | _, [] => []
  | O, _ :: l' => l'
  | S i', x :: l' => x :: remove_nth i' l'
  end.

(** One turn of the event loop.  [Settle i host] resumes the [i]-th
    suspended handler with the outcome of its promise; there is nothing to
    resume when [i] names none. *)
Definition step (now : Z) (sys : System) (ev : Event) : System :=
  match ev with
  | Settle i host =>
      match nth_error (pending sys) i with
      | Some (task c k) =>
          spawn now (mkSystem (app sys) (remove_nth i (pending sys)) (console sys))
                (k (settle host c))
      | None => sys
      end
  | _ => fold_left (spawn now) (handlers ev (app sys)) sys
  end.

(** A history: events, each with the time of its turn. *)
Definition exec (sys : System) (history : list (Z * Event)) : System :=
  fold_left (fun s te => step (fst te) s (snd te)) history sys.

(** Resuming a suspended handler once the host has settled its promise. *)
Definition resume (now : Z) (host : Host) (t : Task) (st : AppState)
  : AppState * list Output * Status :=
  match t with
  | task c k => run now (k (settle host c)) st
  end.

(** ** What a handler can do to the feed

    [feed_silent p]: on no path does [p] reach a [setMessages]. *)

Definition touches_feed {T : Type} (o : Op T) : bool :=
  match o with
  | setMessages _ => true
  | _ => false
  end.

Inductive feed_silent : Prog unit -> Prop :=
| silent_Ret : forall a, feed_silent (Ret a)
| silent_Throw : forall e, feed_silent (Throw e)
| silent_Act : forall T (o : Op T) k,
    touches_feed o = false -> (forall x, feed_silent (k x)) ->
    feed_silent (Act o k)
| silent_Await : forall T (c : Call T) k,
    (forall s, feed_silent (k s)) -> feed_silent (Await c k).

Definition task_silent (t : Task) : Prop :=
  match t with
  | task c k => forall s, feed_silent (k s)
  end.

(** The entries the push channel delivered in a history, in order of
    arrival: the frames that [JSON.parse] accepts. *)
Definition pushed_by (ev : Event) : list json :=
  match ev with
  | WsMessage data =>
      match JSON.parse data with
      | Some v => [v]
      | None => []
      end
  | _ => []
  end.

Definition pushed (history : list (Z * Event)) : list json :=
  flat_map (fun te => pushed_by (snd te)) history.

(** The frames of a history, in order of arrival. *)
Definition frames (history : list (Z * Event)) : list jstring :=
  flat_map (fun te => match snd te with WsMessage data => [data] | _ => [] end)
           history.

(** ** Invariants and vocabulary of the statements *)

Definition quiet (sys : System) : Prop := Forall task_silent (pending sys).

(** The systems the component can be in: [boot], and what a turn of the
    event loop makes of one of them. *)
Inductive reachable : System -> Prop :=
| reach_boot : reachable boot
| reach_step : forall now sys ev, reachable sys -> reachable (step now sys ev).

(** [decodes frame entry]: the frame is the JSON text of the entry. *)
Definition decodes (frame : jstring) (entry : json) : Prop :=
  JSON.parse frame = Some entry.

(** A host that answers every [fetch] with [fetched], every permission
    query with [granted] and every picker with [picked]. *)
Definition host_of (fetched : Settled Response) (granted : jstring)
    (picked : ImagePickerResult) : Host :=
  fun T c =>
    match c in Call T return Settled T with
    | fetch _ _ => fetched
    | response_json _ => Rejected (new_Error "not the host's to settle")
    | requestCameraPermissionsAsync => Fulfilled (mkPermission granted)
    | requestMediaLibraryPermissionsAsync => Fulfilled (mkPermission granted)
    | getMediaLibraryPermissionsAsync => Fulfilled (mkPermission granted)
    | getCameraPermissionsAsync => Fulfilled (mkPermission granted)
    | launchImageLibraryAsync => Fulfilled picked
    | launchCameraAsync => Fulfilled picked
    end.

(** The request of [uploadImage]. *)
Definition upload_request (image : option jstring) (carNumber : jstring)
  : jstring * RequestInit :=
  (SERVER_URL ++ js "/upload-image/",
   mkInit (js "POST") [] (MultipartBody (App.upload_form image carNumber))).

(** The request of [sendCarNumber] at time [now]. *)
Definition send_request (carNumber : jstring) (now : Z) : jstring * RequestInit :=
  (SERVER_URL ++ js "/messages/",
   mkInit (js "POST") [(js "Content-Type", js "application/json")]
          (TextBody (Stringify.stringify (App.car_number_message carNumber now)))).

(** What [sendCarNumber] prints and shows when its request fails with [e]. *)
Definition send_failure (e : Error) : list Output :=
  [LoggedError (js "Error sending car number:") [PError e];
   Alerted (js "Error") (js "Failed to send car number. Please try again.")].

(** ** Proof automation *)

(** Unfolding a run, and nothing of the data it carries. *)
Ltac run_cbn :=
  cbn [run resume settle bind try_catch act await perform call_output negb
       fst snd List.app].

Ltac silent_step :=
  first
    [ apply silent_Ret
    | apply silent_Throw
    | apply silent_Act; [reflexivity | intros]
    | apply silent_Await; intros
    | match goal with
      | |- context [match ?x with Fulfilled _ => _ | Rejected _ => _ end] => destruct x
      | |- context [if ?b then _ else _] => destruct b
      | |- context [App.first_uri ?r] => unfold App.first_uri; destruct (assets r)
      end
    | progress cbn ].

Ltac silent := repeat silent_step.

Ltac settle_consumed H :=
  unfold JSON.consumed in H |- *;
  match type of H with
  | match ?res with _ => _ end => destruct res; simpl in *; auto; try lia
  end.

(** ** Vocabulary of the further properties *)

(** What a [catch] block prints and shows: the console line under [label]
    and the alert [msg]. *)
Definition reported (label : string) (msg : string) (e : Error) : list Output :=
  [LoggedError (js label) [PError e]; Alerted (js "Error") (js msg)].

Definition permissions_failure : Error -> list Output :=
  reported "Error requesting permissions:" "Failed to request permissions".

Definition pick_failure : Error -> list Output :=
  reported "Error picking image:" "Failed to pick image. Please try again.".

Definition photo_failure : Error -> list Output :=
  reported "Error taking photo:" "Failed to take photo. Please try again.".

Definition upload_failure : Error -> list Output :=
  reported "Error uploading image:" "Failed to upload image. Please try again.".

(** The error of reading [.uri] of a missing first asset. *)
Definition no_asset : Error :=
  mkError (js "TypeError") (js "Cannot read property 'uri' of undefined").

(** A handler run from start to end with no other turn in between, every
    promise settled by [host] as soon as it is awaited.  The result is the
    final state, all the output, and the exception that escaped, if any. *)
Fixpoint finish (host : Host) (now : Z) (p : Prog unit) (st : AppState)
  : AppState * list Output * option Error :=
  match p with
  | Ret _ => (st, [], None)
  | Throw e => (st, [], Some e)
  | Act o k =>
      let '(st1, out1, x) := perform now o st in
      let '(st2, out2, r) := finish host now (k x) st1 in
      (st2, out1 ++ out2, r)
  | Await c k =>
      let '(st2, out2, r) := finish host now (k (settle host c)) st in
      (st2, call_output c ++ out2, r)
  end.

(** The requests in an output, in order. *)
Definition requests (out : list Output) : list (jstring * RequestInit) :=
  flat_map (fun o => match o with Requested url init => [(url, init)] | _ => [] end)
           out.

(** ** Safety along every path of a handler

    [guarded Inv Out Exn p]: on every path of [p], every effect keeps the state
    invariant [Inv] and emits only outputs in [Out], and an exception that
    leaves [p] is in [Exn]. *)

Section Guard.

Variable Inv : AppState -> Prop.
Variable Out : Output -> Prop.
Variable Exn : Error -> Prop.

Definition op_guarded {T : Type} (o : Op T) : Prop :=
  forall now st,
    Inv st ->
    Inv (fst (fst (perform now o st))) /\ Forall Out (snd (fst (perform now o st))).

Inductive guarded : Prog unit -> Prop :=
| guarded_Ret : forall a, guarded (Ret a)
| guarded_Throw : forall e, Exn e -> guarded (Throw e)
| guarded_Act : forall T (o : Op T) k,
    op_guarded o -> (forall x, guarded (k x)) -> guarded (Act o k)
| guarded_Await : forall T (c : Call T) k,
    Forall Out (call_output c) -> (forall s, guarded (k s)) -> guarded (Await c k).

Definition task_guarded (t : Task) : Prop :=
  match t with
  | task c k => forall s, guarded (k s)
  end.

(** A line of the console: an output in [Out], or an uncaught exception in
    [Exn]. *)
Definition line_guarded (o : Output) : Prop :=
  Out o \/ exists e, o = Uncaught e /\ Exn e.

Definition system_guarded (sys : System) : Prop :=
  Inv (app sys) /\ Forall task_guarded (pending sys) /\ Forall line_guarded (console sys).

End Guard.

(** What the component may put on the console: no request but the two it
    is written to send, each with a car number of at most 8 code units, an
    upload only with an image and a send only with a car number; never the
    alert of [uploadImage] for a missing image.  ([Uncaught] is no output
    of an effect: it is written by the event loop.) *)
Definition audited (o : Output) : Prop :=
  match o with
  | Requested url init =>
      (exists img car,
          truthy_opt img = true /\ (length car <= 8)%nat /\
          (url, init) = upload_request img car) \/
      (exists car now,
          car <> [] /\ (length car <= 8)%nat /\ (url, init) = send_request car now)
  | Alerted title msg =>
      (title, msg) <> (js "Error", js "Please select an image first")
  | Uncaught _ => False
  | _ => True
  end.

(** The staged car number is at most 8 code units long. *)
Definition short_number (st : AppState) : Prop := (length (carNumber st) <= 8)%nat.

(** The one exception the component lets through. *)
Definition parse_error (e : Error) : Prop := e = SyntaxError "JSON Parse error".

Definition audit_ok : Prog unit -> Prop := guarded short_number audited parse_error.






Ltac audit_op :=
  let H := fresh "H" in
  intros ? ? H; split;
  [ first [ exact H | unfold short_number; simpl; lia ]
  | simpl; repeat constructor;
    let Hne := fresh "Hne" in
    intro Hne; vm_compute in Hne; discriminate Hne ].

Ltac audit_step :=
  first
    [ apply guarded_Ret
    | apply guarded_Throw; reflexivity
    | apply guarded_Act; [audit_op | intros]
    | apply guarded_Await; [apply Forall_nil | intros]
    | match goal with
      | |- context [match ?x with Fulfilled _ => _ | Rejected _ => _ end] => destruct x
      | |- context [if ?b then _ else _] => destruct b
      | |- context [App.first_uri ?r] => unfold App.first_uri; destruct (assets r)
      end
    | progress cbn [bind try_catch act await] ].

Ltac audit := repeat audit_step.




(** Following an uninterrupted run through every answer of its host. *)
Ltac finish_step :=
  first
    [ progress cbn [finish settle perform call_output bind try_catch act await
                    negb fst snd List.app requests flat_map]
    | match goal with
      | |- context [match ?h ?T ?c with Fulfilled _ => _ | Rejected _ => _ end] =>
          destruct (h T c)
      | |- context [match JSON.parse ?s with Some _ => _ | None => _ end] =>
          destruct (JSON.parse s)
      | |- context [if ?b then _ else _] => destruct b
      | |- context [App.first_uri ?r] => unfold App.first_uri; destruct (assets r)
      end ].

Ltac finish_all := repeat finish_step; try reflexivity.

(** ** Rendering the feed

    [renderMessage] and the [messages.map] of the component's render, as
    functions from the feed to the tree of elements they return.  What
    React and the platform make of that tree is not part of the model. *)

(** A synchronous computation: its value, or the exception it throws. *)
Inductive Outcome (A : Type) : Type :=
| Returned (a : A)
| Threw (e : Error).
Arguments Returned {A} a.
Arguments Threw {A} e.

Definition and_then {A B : Type} (o : Outcome A) (f : A -> Outcome B) : Outcome B :=
  match o with
  | Returned a => f a
  | Threw e => Threw e
  end.

Notation "x <~ o ;; k" := (and_then o (fun x => k))
  (at level 61, o at next level, right associativity).

(** What is left to the JavaScript engine: numbers are doubles and times
    are formatted for a locale, neither of which is modelled.
    [number_truthy] and [number_toString] are [ToBoolean] and [ToString] of
    the number a literal denotes; [toLocaleTimeString v] is
    [new Date(v).toLocaleTimeString()] for a primitive [v], [None] being
    [undefined]. *)
Record Engine : Type :=
  mkEngine {
    number_truthy : jstring -> bool;
    number_toString : jstring -> jstring;
    toLocaleTimeString : option json -> jstring
  }.

(** The value under a key of an object: the first member with that key. *)
Fixpoint lookup (k : jstring) (m : list (jstring * json)) : option json :=
  match m with
  | [] => None
  | (k', v) :: m' => if jstring_eqb k k' then Some v else lookup k m'
  end.

Definition TypeError (msg : jstring) : Error := mkError (js "TypeError") msg.

(** [msg.name], for a name that is no array index and that no prototype
    defines (as the five names [renderMessage] reads): an own property of
    an object, [undefined] ([None]) on anything else, and a [TypeError] on
    [null]. *)
Definition Get (msg : json) (name : string) : Outcome (option json) :=
  match msg with
  | JNull =>
      Threw (TypeError (js "Cannot read property '" ++ js name ++ js "' of null"))
  | JObject members => Returned (lookup (js name) members)
  | _ => Returned None
  end.

(** [ToBoolean] of a value that came out of [JSON.parse], or [undefined]. *)
Definition ToBoolean (e : Engine) (v : option json) : bool :=
  match v with
  | None => false
  | Some JNull => false
  | Some (JBool b) => b
  | Some (JNumber literal) => number_truthy e literal
  | Some (JString s) => truthy s
  | Some (JArray _) => true
  | Some (JObject _) => true
  end.

(** [ToString] of a value that came out of [JSON.parse].  An array is its
    elements joined by commas, [null] elements as empty strings; an object
    is ["[object Object]"], unless it has a member [toString], which is not
    callable and leaves no way to a primitive: a [TypeError]. *)
Fixpoint ToString (e : Engine) (v : json) : Outcome jstring :=
  match v with
  | JNull => Returned (js "null")
  | JBool true => Returned (js "true")
  | JBool false => Returned (js "false")
  | JNumber literal => Returned (number_toString e literal)
  | JString s => Returned s
  | JArray items =>
      (fix join (items : list json) : Outcome jstring :=
         match items with
         | [] => Returned []
         | x :: rest =>
             s <~ match x with JNull => Returned [] | _ => ToString e x end ;;
             match rest with
             | [] => Returned s
             | _ :: _ => r <~ join rest ;; Returned (s ++ js "," ++ r)
             end
         end) items
  | JObject members =>
      match lookup (js "toString") members with
      | Some _ => Threw (TypeError (js "Cannot convert object to primitive value"))
      | None => Returned (js "[object Object]")
      end
  end.

(** [new Date(v).toLocaleTimeString()]: an array or an object is first
    turned into a primitive, which is its string. *)
Definition locale_time (e : Engine) (v : option json) : Outcome jstring :=
  match v with
  | Some (JArray items) =>
      s <~ ToString e (JArray items) ;; Returned (toLocaleTimeString e (Some (JString s)))
  | Some (JObject members) =>
      s <~ ToString e (JObject members) ;;
      Returned (toLocaleTimeString e (Some (JString s)))
  | _ => Returned (toLocaleTimeString e v)
  end.

Module styles.

Inductive name : Type :=
| messageContainer
| clientMessage
| serverMessage
| messageContent
| messageText
| carNumber
| timestamp
| messageImage.

End styles.

#[local] Set Warnings "-register-all".

(** What a render returns: elements, the text written between tags, and the
    values of the expressions in braces ([None] for [undefined]). *)
Inductive Node : Type :=
| View (key : option nat) (style : list styles.name) (children : list Node)
| Image (source_uri : jstring) (style : list styles.name) (resizeMode : jstring)
| Text (style : list styles.name) (children : list Node)
| Chars (s : jstring)
| Value (v : option json).

Definition renderMessage (e : Engine) (msg : json) (index : nat) : Outcome Node :=
  client_id <~ Get msg "client_id" ;;
  let isServer :=
    match client_id with
    | Some (JString s) => jstring_eqb s (js "server")
    | _ => false
    end in
  hasImage <~ Get msg "image_path" ;;
  image <~ match hasImage with
           | Some path =>
               if ToBoolean e hasImage then
                 shown <~ ToString e path ;;
                 Returned (Image (SERVER_URL ++ js "/images/" ++ shown)
                                 [styles.messageImage] (js "cover"))
               else Returned (Value hasImage)
           | None => Returned (Value hasImage)
           end ;;
  message <~ Get msg "message" ;;
  content <~ (if ToBoolean e message then
                car_number <~ Get msg "car_number" ;;
                stamp <~ Get msg "timestamp" ;;
                time <~ locale_time e stamp ;;
                Returned
                  (View None [styles.messageContent]
                     [Text [styles.messageText] [Value message];
                      (if ToBoolean e car_number
                       then Text [styles.carNumber] [Chars (js "Car: "); Value car_number]
                       else Value car_number);
                      Text [styles.timestamp] [Value (Some (JString time))]])
              else Returned (Value message)) ;;
  Returned
    (View (Some index)
       [styles.messageContainer;
        if isServer then styles.serverMessage else styles.clientMessage]
       [image; content]).

(** [messages.map((msg, index) => renderMessage(msg, index))], from
    [index] on. *)
Fixpoint render_from (e : Engine) (index : nat) (msgs : list json)
  : Outcome (list Node) :=
  match msgs with
  | [] => Returned []
  | msg :: rest =>
      node <~ renderMessage e msg index ;;
      nodes <~ render_from e (S index) rest ;;
      Returned (node :: nodes)
  end.

Definition renderMessages (e : Engine) (st : AppState) : Outcome (list Node) :=
  render_from e 0 (messages st).

(** The [Text] elements of a tree, in order. *)
Fixpoint texts (n : Node) : list Node :=
  match n with
  | View _ _ children => flat_map texts children
  | Text _ _ => [n]
  | _ => []
  end.

Definition key_of (n : Node) : option nat :=
  match n with
  | View key _ _ => key
  | _ => None
  end.

(** An engine for the examples: every number truthy and printed as it was
    written, every time shown as noon. *)
Definition example_engine : Engine :=
  mkEngine (fun _ => true) (fun literal => literal) (fun _ => js "12:00:00").

(** A value that is no array and no object. *)
Definition primitive (v : option json) : Prop :=
  match v with
  | Some (JArray _) => False
  | Some (JObject _) => False
  | _ => True
  end.

(** The lines of the console that record the channel being opened. *)
Definition is_connection (o : Output) : bool :=
  match o with
  | Connected _ => true
  | _ => false
  end.

Definition connections (out : list Output) : list Output := filter is_connection out.

(** The connection an event opens: the mount effect opens one. *)
Definition opened_by (ev : Event) : list Output :=
  match ev with
  | Mount => [Connected WS_URL]
  | _ => []
  end.

Definition no_connection (o : Output) : Prop := is_connection o = false.

(** [offline p]: on no path does [p] open a channel. *)
Definition offline : Prog unit -> Prop :=
  guarded (fun _ => True) no_connection (fun _ => True).

Definition offline_system (sys : System) : Prop :=
  Forall (task_guarded (fun _ => True) no_connection (fun _ => True)) (pending sys).

Ltac offline_step :=
  first
    [ apply guarded_Ret
    | apply guarded_Throw; exact Logic.I
    | apply guarded_Act;
      [ intros ? ? _; split; [exact Logic.I | simpl; repeat constructor] | intros ]
    | apply guarded_Await; [repeat constructor | intros]
    | match goal with
      | |- context [match ?x with Fulfilled _ => _ | Rejected _ => _ end] => destruct x
      | |- context [match JSON.parse ?s with Some _ => _ | None => _ end] =>
          destruct (JSON.parse s)
      | |- context [if ?b then _ else _] => destruct b
      | |- context [App.first_uri ?r] => unfold App.first_uri; destruct (assets r)
      end
    | progress cbn [bind try_catch act await negb] ].

Ltac offline_all := repeat offline_step.

(** * Properties *)

(** ** The built-ins on known values *)

Example parse_hello :
  JSON.parse (quoted "{'message': 'hello', 'n': [1, -2.5e3, true, null]}")
  = Some (JObject [(js "message", JString (js "hello"));
                   (js "n", JArray [JNumber (js "1"); JNumber (js "-2.5e3");
                                    JBool true; JNull])]).
Proof. vm_compute. reflexivity. Qed.

Example stringify_object :
  Stringify.stringify (JObject [(js "a", JString (js "x")); (js "b", JArray [JNull; JBool true])])
  = quoted "{'a':'x','b':[null,true]}".
Proof. vm_compute. reflexivity. Qed.

Example toISOString_epoch : Date.toISOString 0 = js "1970-01-01T00:00:00.000Z".
Proof. vm_compute. reflexivity. Qed.

Example toISOString_2024 :
  Date.toISOString 1704067200000 = js "2024-01-01T00:00:00.000Z".
Proof. vm_compute. reflexivity. Qed.

Example toISOString_leap_day :
  Date.toISOString 1709251199999 = js "2024-02-29T23:59:59.999Z".
Proof. vm_compute. reflexivity. Qed.

Example toISOString_before_epoch :
  Date.toISOString (-1) = js "1969-12-31T23:59:59.999Z".
Proof. vm_compute. reflexivity. Qed.

Example ISO_instant_rejects : ISO_instant (js "2024-01-01 00:00:00") = false.
Proof. reflexivity. Qed.

(** ** Strings *)

Lemma jstring_eqb_eq (a b : jstring) : jstring_eqb a b = true <-> a = b.
Proof.
  revert b; induction a as [|x a IH]; intros [|y b]; simpl; split;
    try congruence; try reflexivity.
  - intros H. apply andb_true_iff in H as [Hx Hab].
    apply N.eqb_eq in Hx. apply IH in Hab. congruence.
  - intros H. injection H as -> ->. rewrite N.eqb_refl. simpl. now apply IH.
Qed.

Lemma truthy_nonempty (s : jstring) : truthy s = true <-> s <> [].
Proof. destruct s; simpl; split; congruence. Qed.

Lemma slice_prefix (s : jstring) (n : nat) :
  String_slice s 0 (Z.of_nat n) = firstn n s.
Proof.
  unfold String_slice, clamp_index. simpl.
  destruct (Z.of_nat n <? 0) eqn:Hn; [apply Z.ltb_lt in Hn; lia|].
  rewrite (Z.min_l 0) by lia. rewrite Z.sub_0_r. simpl.
  destruct (Nat.le_gt_cases n (length s)) as [Hle | Hgt].
  - rewrite Z.min_l by lia. rewrite Z.max_l by lia. now rewrite Nat2Z.id.
  - rewrite Z.min_r by lia. rewrite Z.max_l by lia. rewrite Nat2Z.id.
    rewrite !firstn_all2; auto; lia.
Qed.

(** ** The fuel of [JSON.parse] is enough *)

Section Fuel.

Import JSON.

Lemma skip_ws_length (s : jstring) : (length (skip_ws s) <= length s)%nat.
Proof.
  induction s as [|c s IH]; simpl; [lia|].
  destruct (is_ws c); simpl; lia.
Qed.

Lemma string_body_consumed_bounded (n : nat) :
  forall s acc, (length s <= n)%nat -> consumed s (string_body s acc).
Proof.
  induction n as [|n IH]; intros [|c r] acc Hlen; simpl in Hlen; try lia;
    try exact I.
  assert (IH' : forall s' acc', (length s' <= length r)%nat ->
                  match string_body s' acc' with
                  | Parsed _ r' => (length r' < S (length r))%nat
                  | Malformed => True
                  | OutOfFuel => False
                  end).
  { intros s' acc' H'. specialize (IH s' acc' ltac:(lia)).
    unfold consumed in IH. destruct (string_body s' acc'); auto. lia. }
  unfold consumed. cbn [string_body length].
  destruct (c =? 34)%N; [lia|].
  destruct (c <? 32)%N; [exact I|].
  destruct (c =? 92)%N; [|apply IH'; lia].
  destruct r as [|e r1]; [exact I|]. simpl in Hlen.
  repeat match goal with
         | |- context [if ?b then _ else _] =>
             destruct b; [apply IH'; simpl; lia|]
         end.
  destruct (e =? 117)%N; [|exact I].
  destruct r1 as [|h1 [|h2 [|h3 [|h4 r2]]]]; try exact I.
  destruct (hex4 h1 h2 h3 h4); [|exact I].
  apply IH'. simpl in *. lia.
Qed.

Lemma string_body_consumed (s acc : jstring) : consumed s (string_body s acc).
Proof. now apply (string_body_consumed_bounded (length s)). Qed.

Lemma take_digits_length (s : jstring) :
  length s = (length (fst (take_digits s)) + length (snd (take_digits s)))%nat.
Proof.
  induction s as [|c s IH]; simpl; [reflexivity|].
  destruct (is_digit c); simpl; [|reflexivity].
  destruct (take_digits s) as [d r]. simpl in *. lia.
Qed.

Lemma number_consumed (s : jstring) : consumed s (number s).
Proof.
  unfold number, consumed.
  set (cut := match s with
              | c :: r => if (c =? 45)%N then ([c], r) else ([], s)
              | [] => ([], s)
              end).
  assert (Hcut : (length (snd cut) <= length s)%nat).
  { subst cut. destruct s as [|c r]; simpl; [lia|].
    destruct (c =? 45)%N; simpl; lia. }
  destruct cut as [sign s1]. simpl in Hcut.
  pose proof (take_digits_length s1) as H1.
  destruct (take_digits s1) as [int s2]. simpl in H1.
  destruct int as [|d ds]; [exact I|]. simpl in H1.
  destruct ((d =? 48)%N && truthy ds); [exact I|].
  set (frac := match s2 with
               | c :: r =>
                   if (c =? 46)%N
                   then match take_digits r with
                        | ([], _) => None
                        | (f, r') => Some (c :: f, r')
                        end
                   else Some ([], s2)
               | [] => Some ([], s2)
               end).
  assert (Hfrac : match frac with
                  | Some (_, s3) => (length s3 <= length s2)%nat
                  | None => True
                  end).
  { subst frac. destruct s2 as [|c r]; [simpl; lia|].
    destruct (c =? 46)%N; [|simpl; lia].
    pose proof (take_digits_length r) as H2.
    destruct (take_digits r) as [[|f fs] r']; simpl in *; [exact I | lia]. }
  destruct frac as [[f s3]|]; [|exact I].
  set (expo := match s3 with
               | c :: r => _
               | [] => Some ([], s3)
               end).
  assert (Hexpo : match expo with
                  | Some (_, s4) => (length s4 <= length s3)%nat
                  | None => True
                  end).
  { subst expo. destruct s3 as [|c r]; [simpl; lia|].
    destruct ((c =? 101)%N || (c =? 69)%N); [|simpl; lia].
    set (sg := match r with
               | g :: r0 => _
               | [] => ([], r)
               end).
    assert (Hsg : (length (snd sg) <= length r)%nat).
    { subst sg. destruct r as [|g r0]; simpl; [lia|].
      destruct ((g =? 43)%N || (g =? 45)%N); simpl; lia. }
    destruct sg as [sgn r1]. simpl in Hsg.
    pose proof (take_digits_length r1) as H3.
    destruct (take_digits r1) as [[|e es] r']; simpl in *; [exact I | lia]. }
  destruct expo as [[e s4]|]; [|exact I]. lia.
Qed.

Lemma keyword_consumed (w : jstring) (v : json) :
  w <> [] -> forall s, consumed s (keyword w v s).
Proof.
  assert (H : forall w s, match keyword w v s with
                          | Parsed _ r => (length r + length w = length s)%nat
                          | Malformed => True
                          | OutOfFuel => False
                          end).
  { clear w. induction w as [|c w IH]; intros s; simpl; [lia|].
    destruct s as [|d s]; [exact I|].
    destruct (c =? d)%N; [|exact I].
    specialize (IH s). destruct (keyword w v s); simpl; auto. lia. }
  intros Hw s. specialize (H w s). unfold consumed.
  destruct (keyword w v s); auto.
  destruct w; [congruence|]. simpl in H. lia.
Qed.

Lemma fuel_enough_all (n : nat) :
  (forall s, (2 * length s < n)%nat -> consumed s (value n s)) /\
  (forall acc s, (2 * length s + 1 < n)%nat -> consumed s (elements n acc s)) /\
  (forall acc s, (2 * length s + 1 < n)%nat -> consumed s (members n acc s)).
Proof.
  induction n as [|n [IHv [IHe IHm]]]; [repeat split; intros; lia|].
  split; [|split].
  - intros s Hs. cbn [value].
    pose proof (skip_ws_length s) as Hws.
    destruct (skip_ws s) as [|c r]; [exact I|]. simpl in Hws.
    destruct (c =? 34)%N.
    { pose proof (string_body_consumed r []) as Hb. settle_consumed Hb. }
    destruct (c =? 91)%N.
    { pose proof (skip_ws_length r) as Hr.
      destruct (skip_ws r) as [|d r']; [exact I|]. simpl in Hr.
      destruct (d =? 93)%N; [simpl; lia|].
      pose proof (IHe [] r ltac:(lia)) as He. settle_consumed He. }
    destruct (c =? 123)%N.
    { pose proof (skip_ws_length r) as Hr.
      destruct (skip_ws r) as [|d r']; [exact I|]. simpl in Hr.
      destruct (d =? 125)%N; [simpl; lia|].
      pose proof (IHm [] r ltac:(lia)) as Hm. settle_consumed Hm. }
    destruct (c =? 110)%N.
    { pose proof (keyword_consumed (js "null") JNull ltac:(discriminate) (c :: r)) as Hk.
      settle_consumed Hk. }
    destruct (c =? 116)%N.
    { pose proof (keyword_consumed (js "true") (JBool true) ltac:(discriminate) (c :: r)) as Hk.
      settle_consumed Hk. }
    destruct (c =? 102)%N.
    { pose proof (keyword_consumed (js "false") (JBool false) ltac:(discriminate) (c :: r)) as Hk.
      settle_consumed Hk. }
    pose proof (number_consumed (c :: r)) as Hn. settle_consumed Hn.
  - intros acc s Hs. cbn [elements].
    pose proof (IHv s ltac:(lia)) as Hv. unfold consumed in Hv |- *.
    destruct (value n s) as [v r| |]; auto.
    pose proof (skip_ws_length r) as Hr.
    destruct (skip_ws r) as [|d r']; [exact I|]. simpl in Hr.
    destruct (d =? 44)%N.
    { pose proof (IHe (v :: acc) r' ltac:(lia)) as He. settle_consumed He. }
    destruct (d =? 93)%N; [lia | exact I].
  - intros acc s Hs. cbn [members].
    pose proof (skip_ws_length s) as Hws.
    destruct (skip_ws s) as [|q r]; [exact I|]. simpl in Hws.
    destruct (q =? 34)%N; [|exact I].
    pose proof (string_body_consumed r []) as Hb. unfold consumed in Hb |- *.
    destruct (string_body r []) as [k r1| |]; auto.
    pose proof (skip_ws_length r1) as Hr1.
    destruct (skip_ws r1) as [|c r2]; [exact I|]. simpl in Hr1.
    destruct (c =? 58)%N; [|exact I].
    pose proof (IHv r2 ltac:(lia)) as Hv. unfold consumed in Hv.
    destruct (value n r2) as [v r3| |]; auto.
    pose proof (skip_ws_length r3) as Hr3.
    destruct (skip_ws r3) as [|d r4]; [exact I|]. simpl in Hr3.
    destruct (d =? 44)%N.
    { pose proof (IHm (obj_set k v acc) r4 ltac:(lia)) as Hm. settle_consumed Hm. }
    destruct (d =? 125)%N; [lia | exact I].
Qed.

(** [parse] never stops for want of fuel: where it answers [None], the
    text is malformed. *)
Lemma fuel_enough (text : jstring) : document (fuel_for text) text <> OutOfFuel.
Proof.
  unfold document, fuel_for.
  pose proof (proj1 (fuel_enough_all (S (2 * length text))) text ltac:(lia)) as H.
  unfold consumed in H.
  destruct (value (S (2 * length text)) text) as [v r| |]; try easy.
  destruct (skip_ws r); discriminate.
Qed.

Lemma parse_None (text : jstring) :
  parse text = None <-> document (fuel_for text) text = Malformed.
Proof.
  unfold parse. pose proof (fuel_enough text) as H.
  destruct (document (fuel_for text) text); split; congruence.
Qed.

End Fuel.

(** ** [JSON.parse] reads back what [JSON.stringify] writes *)

Section Roundtrip.

Import Stringify.

Lemma hex_value_digit (d : N) : (d < 16)%N -> JSON.hex_value (hex_digit d) = Some d.
Proof.
  intros Hd. unfold JSON.hex_value, JSON.is_digit, hex_digit.
  destruct (N.ltb_spec d 10).
  - replace ((48 <=? 48 + d)%N) with true by (symmetry; apply N.leb_le; lia).
    replace ((48 + d <=? 57)%N) with true by (symmetry; apply N.leb_le; lia).
    cbn [andb]. f_equal. lia.
  - replace ((87 + d <=? 57)%N) with false by (symmetry; apply N.leb_gt; lia).
    rewrite andb_false_r.
    replace ((97 <=? 87 + d)%N) with true by (symmetry; apply N.leb_le; lia).
    replace ((87 + d <=? 102)%N) with true by (symmetry; apply N.leb_le; lia).
    cbn [andb]. f_equal. lia.
Qed.

Lemma hex4_escape (c : N) :
  (c < 65536)%N ->
  JSON.hex4 (hex_digit ((c / 4096) mod 16)) (hex_digit ((c / 256) mod 16))
            (hex_digit ((c / 16) mod 16)) (hex_digit (c mod 16)) = Some c.
Proof.
  intros Hc. unfold JSON.hex4.
  rewrite !hex_value_digit by (apply N.mod_lt; discriminate).
  f_equal.
  assert (E1 := N.div_mod c 16 ltac:(discriminate)).
  assert (E2 := N.div_mod (c / 16) 16 ltac:(discriminate)).
  assert (E3 := N.div_mod (c / 256) 16 ltac:(discriminate)).
  rewrite N.Div0.div_div in E2, E3.
  change (16 * 16)%N with 256%N in E2. change (256 * 16)%N with 4096%N in E3.
  assert (E4 : (c / 4096 < 16)%N) by (apply N.Div0.div_lt_upper_bound; exact Hc).
  rewrite (N.mod_small (c / 4096) 16 E4) in *. lia.
Qed.

Lemma string_body_plain (c : N) (rest acc : jstring) :
  c <> 34%N -> (32 <= c)%N -> c <> 92%N ->
  JSON.string_body (c :: rest) acc = JSON.string_body rest (c :: acc).
Proof.
  intros H34 H32 H92. cbn [JSON.string_body].
  apply N.eqb_neq in H34, H92. apply N.ltb_ge in H32.
  now rewrite H34, H32, H92.
Qed.

Lemma string_body_escape (h1 h2 h3 h4 : N) (rest acc : jstring) :
  JSON.string_body (92 :: 117 :: h1 :: h2 :: h3 :: h4 :: rest)%N acc
  = match JSON.hex4 h1 h2 h3 h4 with
    | Some u => JSON.string_body rest (u :: acc)
    | None => JSON.Malformed
    end.
Proof. reflexivity. Qed.

Lemma surrogate_range (c : N) :
  is_high_surrogate c || is_low_surrogate c = true ->
  (55296 <= c /\ c <= 57343)%N.
Proof.
  unfold is_high_surrogate, is_low_surrogate. intros H.
  apply orb_true_iff in H as [H | H]; apply andb_true_iff in H as [H1 H2];
    apply N.leb_le in H1, H2; lia.
Qed.

(** The parser reads the escape of a code unit back as the code unit. *)
Lemma string_body_unit (c : N) (rest acc : jstring) :
  JSON.string_body (quote_unit c ++ rest) acc = JSON.string_body rest (c :: acc).
Proof.
  unfold quote_unit.
  destruct (N.eqb_spec c 8) as [->|N8]; [reflexivity|].
  destruct (N.eqb_spec c 9) as [->|N9]; [reflexivity|].
  destruct (N.eqb_spec c 10) as [->|N10]; [reflexivity|].
  destruct (N.eqb_spec c 12) as [->|N12]; [reflexivity|].
  destruct (N.eqb_spec c 13) as [->|N13]; [reflexivity|].
  destruct (N.eqb_spec c 34) as [->|N34]; [reflexivity|].
  destruct (N.eqb_spec c 92) as [->|N92]; [reflexivity|].
  destruct (N.ltb_spec c 32) as [Hlt | Hge].
  - cbn [orb]. unfold unicode_escape. cbn [List.app].
    rewrite string_body_escape, hex4_escape by lia. reflexivity.
  - cbn [orb].
    destruct (is_high_surrogate c || is_low_surrogate c) eqn:Hs.
    + apply surrogate_range in Hs. unfold unicode_escape. cbn [List.app].
      rewrite string_body_escape, hex4_escape by lia. reflexivity.
    + cbn [List.app]. now apply string_body_plain.
Qed.

Lemma string_body_quote_bounded (n : nat) :
  forall s acc rest,
    (length s <= n)%nat ->
    JSON.string_body (quote_body s ++ 34%N :: rest) acc = JSON.Parsed (rev acc ++ s) rest.
Proof.
  induction n as [|n IH]; intros [|c s] acc rest Hlen; simpl in Hlen;
    try lia.
  - cbn. now rewrite app_nil_r.
  - cbn. now rewrite app_nil_r.
  - assert (Hone : JSON.string_body ((quote_unit c ++ quote_body s) ++ 34%N :: rest) acc
                   = JSON.Parsed (rev acc ++ c :: s) rest).
    { rewrite <- app_assoc, string_body_unit, IH by lia.
      cbn [rev]. now rewrite <- app_assoc. }
    cbn [quote_body].
    destruct (is_high_surrogate c) eqn:Hhigh; [|exact Hone].
    destruct s as [|d s];
      [cbn [quote_body] in Hone; rewrite app_nil_r in Hone; exact Hone|].
    destruct (is_low_surrogate d) eqn:Hlow; [|exact Hone].
    assert (Hc : (55296 <= c <= 57343)%N)
      by (apply surrogate_range; rewrite Hhigh; reflexivity).
    assert (Hd : (55296 <= d <= 57343)%N)
      by (apply surrogate_range; rewrite Hlow; apply orb_true_r).
    cbn [List.app].
    rewrite !string_body_plain by lia.
    simpl in Hlen. rewrite IH by lia.
    cbn [rev]. now rewrite <- !app_assoc.
Qed.

Lemma string_body_quote (s acc rest : jstring) :
  JSON.string_body (quote_body s ++ 34%N :: rest) acc = JSON.Parsed (rev acc ++ s) rest.
Proof. now apply (string_body_quote_bounded (length s)). Qed.

Lemma skip_ws_quote (s : jstring) : JSON.skip_ws (34%N :: s) = 34%N :: s.
Proof. reflexivity. Qed.

(** A quoted string is read as a value, whatever follows it. *)
Lemma value_quote (n : nat) (s rest : jstring) :
  JSON.value (S n) (quote s ++ rest) = JSON.Parsed (JString s) rest.
Proof.
  unfold quote. cbn [List.app JSON.value]. rewrite skip_ws_quote.
  cbn [N.eqb Pos.eqb]. rewrite <- app_assoc. cbn [List.app].
  now rewrite string_body_quote.
Qed.

(** A member whose value is a string, before a comma and before the
    closing brace. *)
Lemma members_string_more (n : nat) (k v : jstring) acc (rest : jstring) :
  JSON.members (S (S n)) acc (quote k ++ 58%N :: quote v ++ 44%N :: rest)
  = JSON.members (S n) (JSON.obj_set k (JString v) acc) rest.
Proof.
  unfold quote at 1. cbn [List.app JSON.members]. rewrite skip_ws_quote.
  cbn [N.eqb Pos.eqb]. rewrite <- app_assoc. cbn [List.app].
  rewrite string_body_quote. cbn [rev List.app JSON.skip_ws JSON.is_ws N.eqb Pos.eqb orb].
  change (58%N :: quote v ++ 44%N :: rest) with ([58%N] ++ quote v ++ 44%N :: rest).
  cbn [List.app]. rewrite value_quote. reflexivity.
Qed.

Lemma members_string_last (n : nat) (k v : jstring) acc (rest : jstring) :
  JSON.members (S (S n)) acc (quote k ++ 58%N :: quote v ++ 125%N :: rest)
  = JSON.Parsed (JObject (JSON.obj_set k (JString v) acc)) rest.
Proof.
  unfold quote at 1. cbn [List.app JSON.members]. rewrite skip_ws_quote.
  cbn [N.eqb Pos.eqb]. rewrite <- app_assoc. cbn [List.app].
  rewrite string_body_quote. cbn [rev List.app JSON.skip_ws JSON.is_ws N.eqb Pos.eqb orb].
  rewrite value_quote. reflexivity.
Qed.

(** An object of three string fields under distinct keys is read back as
    it was written. *)
Lemma parse_three_strings (k1 k2 k3 v1 v2 v3 : jstring) :
  jstring_eqb k2 k1 = false -> jstring_eqb k3 k1 = false ->
  jstring_eqb k3 k2 = false ->
  JSON.parse (stringify (JObject [(k1, JString v1); (k2, JString v2); (k3, JString v3)]))
  = Some (JObject [(k1, JString v1); (k2, JString v2); (k3, JString v3)]).
Proof.
  intros H21 H31 H32. unfold JSON.parse, JSON.document, JSON.fuel_for.
  cbn [stringify map join fst snd].
  repeat (rewrite <- app_assoc; cbn [List.app]).
  set (body := (quote k1 ++ _)).
  cbn [length Nat.mul Nat.add]. rewrite Nat.add_succ_r.
  destruct (length body) as [|[|len]] eqn:Hlen.
  { subst body. unfold quote in Hlen. discriminate Hlen. }
  { subst body. unfold quote in Hlen. cbn [List.app length] in Hlen.
    rewrite length_app in Hlen. cbn [length] in Hlen. lia. }
  cbn [Nat.add]. subst body.
  cbn [JSON.value JSON.skip_ws JSON.is_ws N.eqb Pos.eqb orb].
  unfold quote at 1. cbn [List.app]. rewrite skip_ws_quote. cbn [N.eqb Pos.eqb].
  change (34%N :: quote_body k1 ++ [34%N] ++ ?x) with (quote k1 ++ x).
  rewrite !members_string_more, members_string_last.
  cbn [JSON.obj_set JSON.skip_ws]. rewrite H21. cbn [JSON.obj_set].
  rewrite H31, H32. reflexivity.
Qed.

End Roundtrip.

(** ** The shape of [toISOString] *)

Lemma digit_is_digit (n : Z) : JSON.is_digit (Date.digit n) = true.
Proof.
  unfold JSON.is_digit, Date.digit.
  pose proof (Z.mod_pos_bound n 10 ltac:(lia)) as Hb.
  apply andb_true_iff; split; apply N.leb_le; lia.
Qed.

Lemma toISOString_shape (t : Z) : ISO_instant (Date.toISOString t) = true.
Proof.
  unfold Date.toISOString.
  destruct (Date.civil_from_days (t / Date.msPerDay)) as [[y m] d].
  unfold Date.year_field, ISO_instant.
  destruct ((0 <=? y) && (y <=? 9999)); [|destruct (y <? 0)];
    cbn [Date.pad List.app js list_ascii_of_string map N_of_ascii N_of_digits
         shaped N.eqb Pos.eqb N.add N.mul andb orb];
    rewrite ?digit_is_digit; reflexivity.
Qed.

(** ** The run of a handler *)

Section Silence.

Variable now : Z.

Lemma perform_keeps_feed {T : Type} (o : Op T) (st : AppState) :
  touches_feed o = false ->
  messages (fst (fst (perform now o st))) = messages st.
Proof. destruct o; simpl; congruence. Qed.

(** A silent program leaves the feed alone and suspends into a silent
    task. *)
Lemma run_silent (p : Prog unit) :
  feed_silent p ->
  forall st,
    messages (fst (fst (run now p st))) = messages st /\
    match snd (run now p st) with
    | Suspended t => task_silent t
    | _ => True
    end.
Proof.
  induction 1 as [a | e | T o k Ho Hk IH | T c k Hk IH]; intros st; simpl; auto.
  pose proof (perform_keeps_feed o st Ho) as Hp.
  destruct (perform now o st) as [[st1 out1] x]. simpl in Hp.
  specialize (IH x st1).
  destruct (run now (k x) st1) as [[st2 out2] s]. simpl in *.
  split; [intuition congruence | tauto].
Qed.

End Silence.

Lemma requestPermissions_silent : feed_silent App.requestPermissions.
Proof. unfold App.requestPermissions. silent. Qed.

Lemma pickImage_silent : feed_silent App.pickImage.
Proof. unfold App.pickImage. silent. Qed.

Lemma takePhoto_silent : feed_silent App.takePhoto.
Proof. unfold App.takePhoto. silent. Qed.

Lemma uploadImage_silent (image : option jstring) (carNumber : jstring) :
  feed_silent (App.uploadImage image carNumber).
Proof. unfold App.uploadImage. silent. Qed.

Lemma sendCarNumber_silent (carNumber : jstring) :
  feed_silent (App.sendCarNumber carNumber).
Proof. unfold App.sendCarNumber. silent. Qed.

(** The message handler on a frame: one entry appended, or the
    [SyntaxError] of [JSON.parse] let through. *)
Lemma onmessage_run (now : Z) (data : jstring) (st : AppState) :
  run now (App.onmessage data) st =
  match JSON.parse data with
  | Some v => (mkApp (messages st ++ [v]) (carNumber st) (image st), [], Finished)
  | None => (st, [], Escaped (SyntaxError "JSON Parse error"))
  end.
Proof.
  unfold App.onmessage, JSON_parse. destruct (JSON.parse data); reflexivity.
Qed.

(** ** Invariants of the event loop *)

Lemma boot_quiet : quiet boot.
Proof. constructor. Qed.

Lemma spawn_silent (now : Z) (sys : System) (p : Prog unit) :
  feed_silent p -> quiet sys ->
  quiet (spawn now sys p) /\
  messages (app (spawn now sys p)) = messages (app sys).
Proof.
  intros Hp Hq. unfold spawn.
  destruct (run_silent now p Hp (app sys)) as [Hm Hs].
  destruct (run now p (app sys)) as [[st out] s]. simpl in *.
  destruct s as [| e | t]; simpl; split; auto; unfold quiet; simpl;
    try (rewrite app_nil_r; exact Hq).
  apply Forall_app; split; [exact Hq | now constructor].
Qed.

Lemma spawn_onmessage (now : Z) (sys : System) (data : jstring) :
  quiet sys ->
  quiet (spawn now sys (App.onmessage data)) /\
  messages (app (spawn now sys (App.onmessage data)))
  = messages (app sys) ++ pushed_by (WsMessage data).
Proof.
  intros Hq. unfold spawn. rewrite onmessage_run. simpl.
  destruct (JSON.parse data); simpl; unfold quiet; simpl;
    rewrite !app_nil_r; auto.
Qed.

Lemma remove_nth_Forall {A : Type} (P : A -> Prop) (l : list A) (i : nat) :
  Forall P l -> Forall P (remove_nth i l).
Proof.
  intros H; revert i; induction H as [|x l Hx Hl IH]; intros [|i]; simpl;
    auto.
Qed.

Lemma spawn_all_silent (now : Z) (ps : list (Prog unit)) :
  Forall feed_silent ps ->
  forall sys, quiet sys ->
    quiet (fold_left (spawn now) ps sys) /\
    messages (app (fold_left (spawn now) ps sys)) = messages (app sys).
Proof.
  induction 1 as [|p ps Hp Hps IH]; intros sys Hq; simpl; auto.
  destruct (spawn_silent now sys p Hp Hq) as [Hq' Hm].
  destruct (IH _ Hq') as [Hq2 Hm2]. split; congruence.
Qed.

(** One turn: the feed grows by what the event pushed, and by nothing
    else. *)
Lemma step_feed (now : Z) (sys : System) (ev : Event) :
  quiet sys ->
  quiet (step now sys ev) /\
  messages (app (step now sys ev)) = messages (app sys) ++ pushed_by ev.
Proof.
  intros Hq.
  assert (Hsil : forall ps, Forall feed_silent ps ->
            quiet (fold_left (spawn now) ps sys) /\
            messages (app (fold_left (spawn now) ps sys))
            = messages (app sys) ++ []).
  { intros ps Hps. rewrite app_nil_r. now apply spawn_all_silent. }
  destruct ev; unfold step, handlers, pushed_by.
  - (* Mount *)
    apply Hsil. repeat apply Forall_cons; try apply Forall_nil;
      [apply requestPermissions_silent | unfold App.connect; silent].
  - (* Unmount *)
    apply Hsil. repeat apply Forall_cons; try apply Forall_nil.
    unfold App.cleanup. silent.
  - (* WsOpen *)
    apply Hsil. repeat apply Forall_cons; try apply Forall_nil.
    unfold App.onopen. silent.
  - (* WsMessage *) cbn [fold_left]. apply spawn_onmessage; assumption.
  - (* WsError *)
    apply Hsil. repeat apply Forall_cons; try apply Forall_nil.
    unfold App.onerror. silent.
  - (* WsClose *)
    apply Hsil. repeat apply Forall_cons; try apply Forall_nil.
    unfold App.onclose. silent.
  - (* ChangeText *)
    apply Hsil. repeat apply Forall_cons; try apply Forall_nil.
    unfold App.onChangeText. silent.
  - (* PressTakePhoto *)
    apply Hsil. repeat apply Forall_cons; try apply Forall_nil.
    apply takePhoto_silent.
  - (* PressPickImage *)
    apply Hsil. repeat apply Forall_cons; try apply Forall_nil.
    apply pickImage_silent.
  - (* PressUpload *)
    apply Hsil. destruct (truthy_opt (image (app sys)));
      repeat apply Forall_cons; try apply Forall_nil.
    apply uploadImage_silent.
  - (* PressSend *)
    apply Hsil. repeat apply Forall_cons; try apply Forall_nil.
    apply sendCarNumber_silent.
  - (* Settle *)
    rewrite app_nil_r.
    destruct (nth_error (pending sys) i) as [[T c k]|] eqn:Hi; [|auto].
    assert (Hk : task_silent (task c k)).
    { unfold quiet in Hq. rewrite Forall_forall in Hq.
      apply Hq. eapply nth_error_In; eauto. }
    destruct (spawn_silent now
                (mkSystem (app sys) (remove_nth i (pending sys)) (console sys))
                (k (settle host c))) as [H1 H2];
      [apply Hk | unfold quiet; simpl; apply remove_nth_Forall; exact Hq |].
    split; [exact H1 | exact H2].
Qed.

Lemma exec_feed (history : list (Z * Event)) :
  forall sys, quiet sys ->
    quiet (exec sys history) /\
    messages (app (exec sys history)) = messages (app sys) ++ pushed history.
Proof.
  unfold exec.
  induction history as [|[now ev] h IH]; intros sys Hq; simpl.
  - now rewrite app_nil_r.
  - destruct (step_feed now sys ev Hq) as [Hq1 Hm1].
    destruct (IH _ Hq1) as [Hq2 Hm2]. split; [assumption|].
    rewrite Hm2, Hm1. now rewrite app_assoc.
Qed.

Lemma exec_app (sys : System) (h1 h2 : list (Z * Event)) :
  exec sys (h1 ++ h2) = exec (exec sys h1) h2.
Proof. unfold exec. apply fold_left_app. Qed.

Lemma reachable_quiet (sys : System) : reachable sys -> quiet sys.
Proof.
  induction 1 as [|now sys ev _ IH]; [apply boot_quiet|].
  now apply step_feed.
Qed.

Lemma reachable_exec (sys : System) (history : list (Z * Event)) :
  reachable sys -> reachable (exec sys history).
Proof.
  revert sys. unfold exec.
  induction history as [|[now ev] h IH]; intros sys Hr; simpl; auto.
  apply IH. now constructor.
Qed.

Lemma pushed_decoded (history : list (Z * Event)) :
  forall events, Forall2 decodes (frames history) events -> pushed history = events.
Proof.
  unfold pushed, frames.
  induction history as [|[now ev] h IH]; intros events H; simpl in *.
  - now inversion H.
  - destruct ev; simpl in *; auto.
    inversion H as [|f e fs es Hd Hrest]; subst.
    unfold decodes in Hd. rewrite Hd. simpl. f_equal. now apply IH.
Qed.

Lemma pushed_origin (history : list (Z * Event)) (entry : json) :
  In entry (pushed history) ->
  exists now data, In (now, WsMessage data) history /\ JSON.parse data = Some entry.
Proof.
  unfold pushed. rewrite in_flat_map. intros [[now ev] [Hin Hp]].
  destruct ev; simpl in Hp; try contradiction.
  destruct (JSON.parse data) as [v|] eqn:Hd; simpl in Hp; [|contradiction].
  destruct Hp as [->|[]]. now exists now, data.
Qed.

(** ** The event loop runs the handlers through [run] and [resume] *)

Lemma step_PressSend (now : Z) (sys : System) :
  step now sys PressSend = spawn now sys (App.sendCarNumber (carNumber (app sys))).
Proof. reflexivity. Qed.

Lemma step_PressUpload (now : Z) (sys : System) :
  truthy_opt (image (app sys)) = true ->
  step now sys PressUpload
  = spawn now sys (App.uploadImage (image (app sys)) (carNumber (app sys))).
Proof. intros H. unfold step, handlers. now rewrite H. Qed.

Lemma step_Settle (now : Z) (sys : System) (i : nat) (host : Host) (t : Task) :
  nth_error (pending sys) i = Some t ->
  step now sys (Settle i host)
  = let '(st, out, s) := resume now host t (app sys) in
    let '(ts, esc) := aftermath s in
    mkSystem st (remove_nth i (pending sys) ++ ts) (console sys ++ out ++ esc).
Proof.
  intros H. unfold step. rewrite H. destruct t as [T c k]. reflexivity.
Qed.

(** A session from [boot]: a car number typed with two letters too many, a
    photo taken, the upload acknowledged, a send answered with a 500, the
    send repeated and accepted. *)
Example session :
  let photo := mkPicked false [mkAsset (js "file:///photo.jpg")] in
  let granted := js "granted" in
  let accept := host_of (Fulfilled (mkResponse 200 (quoted "{'status':'ok'}")))
                        granted photo in
  let refuse := host_of (Fulfilled (mkResponse 500 [])) granted photo in
  map (fun h => (carNumber (app (exec boot h)), image (app (exec boot h))))
      [ [(1, ChangeText (js "CAR1234567"))];
        [(1, ChangeText (js "CAR1234567")); (2, PressTakePhoto);
         (3, Settle 0 accept); (4, Settle 0 accept)];
        [(1, ChangeText (js "CAR1234567")); (2, PressTakePhoto);
         (3, Settle 0 accept); (4, Settle 0 accept);
         (5, PressUpload); (6, Settle 0 accept); (7, Settle 0 accept)];
        [(1, ChangeText (js "CAR1234567")); (2, PressTakePhoto);
         (3, Settle 0 accept); (4, Settle 0 accept);
         (5, PressUpload); (6, Settle 0 accept); (7, Settle 0 accept);
         (8, PressSend); (9, Settle 0 refuse)];
        [(1, ChangeText (js "CAR1234567")); (2, PressTakePhoto);
         (3, Settle 0 accept); (4, Settle 0 accept);
         (5, PressUpload); (6, Settle 0 accept); (7, Settle 0 accept);
         (8, PressSend); (9, Settle 0 refuse);
         (10, PressSend); (11, Settle 0 accept)] ]
  = [ (js "CAR12345", None);
      (js "CAR12345", Some (js "file:///photo.jpg"));
      (js "CAR12345", None);
      (js "CAR12345", None);
      ([], None) ].
Proof. vm_compute. reflexivity. Qed.

(** * The claims *)

(** C1.  From any state the component can reach, a history whose push
    frames decode to the events E1..En leaves the feed extended by exactly
    E1..En in their order of arrival, whatever else happens in between and
    whatever the events hold (their timestamps are never read); and a turn
    of the event loop, whatever its event, keeps every entry that is in the
    feed, in place. *)
Theorem feed_keeps_arrival_order (sys : System) :
  reachable sys ->
  (forall history events,
      Forall2 decodes (frames history) events ->
      messages (app (exec sys history)) = messages (app sys) ++ events) /\
  (forall now data entry st,
      decodes data entry ->
      run now (App.onmessage data) st
      = (mkApp (messages st ++ [entry]) (carNumber st) (image st), [], Finished)) /\
  (forall now ev, exists suffix,
      messages (app (step now sys ev)) = messages (app sys) ++ suffix).
Proof.
  intros Hr. pose proof (reachable_quiet sys Hr) as Hq. repeat split.
  - intros history events Hd.
    destruct (exec_feed history sys Hq) as [_ Hm].
    rewrite Hm. f_equal. now apply pushed_decoded.
  - intros now data entry st Hd. rewrite onmessage_run. unfold decodes in Hd.
    now rewrite Hd.
  - intros now ev. exists (pushed_by ev). now apply step_feed.
Qed.

(** Two pushes whose embedded timestamps run backwards, a key press and a
    send between them: the feed holds the two entries as they arrived. *)
Lemma feed_keeps_arrival_order_witness :
  messages (app (exec boot
    [(10, WsMessage (quoted "{'message':'late','timestamp':'2024-01-02T00:00:00Z'}"));
     (20, ChangeText (js "XYZ1"));
     (30, PressSend);
     (40, WsMessage (quoted "{'message':'early','timestamp':'2024-01-01T00:00:00Z'}"))]))
  = [JObject [(js "message", JString (js "late"));
              (js "timestamp", JString (js "2024-01-02T00:00:00Z"))];
     JObject [(js "message", JString (js "early"));
              (js "timestamp", JString (js "2024-01-01T00:00:00Z"))]].
Proof.
  apply (proj1 (feed_keeps_arrival_order boot reach_boot)).
  repeat constructor.
Defined.

(** C2, on the code.  A frame that is not a JSON text (here an object cut
    short of its closing brace): [JSON.parse] throws and nothing in
    [onmessage] catches it, so the [SyntaxError] leaves the handler and the
    handler reports nothing (no alert, no console line).  The state is as it
    was, and the next frame is appended as usual. *)
Theorem onmessage_malformed_frame_escapes (now : Z) (st : AppState) (sys : System) :
  let frame := quoted "{'message': 'hello'" in
  JSON.document (JSON.fuel_for frame) frame = JSON.Malformed /\
  run now (App.onmessage frame) st
  = (st, [], Escaped (SyntaxError "JSON Parse error")) /\
  step now sys (WsMessage frame)
  = mkSystem (app sys) (pending sys)
             (console sys ++ [Uncaught (SyntaxError "JSON Parse error")]) /\
  messages (app (step now (step now sys (WsMessage frame))
                      (WsMessage (quoted "{'message': 'hello'}"))))
  = messages (app sys) ++ [JObject [(js "message", JString (js "hello"))]].
Proof.
  intros frame. repeat split.
  unfold step, handlers. cbn [fold_left]. unfold spawn. rewrite onmessage_run.
  replace (JSON.parse frame) with (@None json) by (vm_compute; reflexivity).
  simpl. now rewrite app_nil_r.
Qed.

(** C3.  [uploadImage] with an image staged puts its request on the
    network and suspends, the state untouched.  When the response is a 2xx
    it suspends once more on the body; when the body decodes it resumes,
    in whatever state the component is by then, to set [image] to [null]
    and nothing else: [carNumber] and the feed are as they were. *)
Theorem uploadImage_ack_clears_image_only
    (img : option jstring) (car : jstring) (now : Z) (st : AppState) :
  truthy_opt img = true ->
  let '(url, init) := upload_request img car in
  exists t1,
    run now (App.uploadImage img car) st
    = (st, [Logged (js "Uploading image:") [print_opt img]; Requested url init],
       Suspended t1) /\
    forall (host : Host) (r : Response),
      host _ (fetch url init) = Fulfilled r -> ok r = true ->
      exists t2,
        (forall now1 st1, resume now1 host t1 st1 = (st1, [], Suspended t2)) /\
        forall v, JSON.parse (text r) = Some v ->
          forall (host2 : Host) now2 st2,
            resume now2 host2 t2 st2
            = (mkApp (messages st2) (carNumber st2) None,
               [Logged (js "Upload successful:") [PJson v];
                Alerted (js "Success") (js "Image uploaded successfully")],
               Finished).
Proof.
  intros Himg. unfold upload_request, App.uploadImage. rewrite Himg.
  remember (SERVER_URL ++ js "/upload-image/") as url.
  remember (mkInit (js "POST") [] (MultipartBody (App.upload_form img car)))
    as init.
  cbn. eexists. split; [reflexivity|].
  intros host r Hfetch Hok. eexists. split.
  - intros now1 st1. unfold resume. cbn. rewrite Hfetch. cbn. rewrite Hok. cbn.
    reflexivity.
  - intros v Hv host2 now2 st2. unfold resume. cbn. rewrite Hv. reflexivity.
Qed.

(** An upload acknowledged with a 200 and a JSON body, run through its
    three turns from a state with both fields staged. *)
Lemma uploadImage_ack_clears_image_only_witness :
  let st := mkApp [] (js "CAR12345") (Some (js "file:///photo.jpg")) in
  let host := host_of (Fulfilled (mkResponse 200 (quoted "{'status':'ok'}")))
                      (js "granted") (mkPicked true []) in
  exists t1 t2 out0 out2,
    run 0 (App.uploadImage (image st) (carNumber st)) st = (st, out0, Suspended t1) /\
    resume 1 host t1 st = (st, [], Suspended t2) /\
    resume 2 host t2 st = (mkApp [] (js "CAR12345") None, out2, Finished).
Proof.
  intros st host.
  destruct (uploadImage_ack_clears_image_only
              (Some (js "file:///photo.jpg")) (js "CAR12345") 0 st eq_refl)
    as [t1 [H1 H2]].
  destruct (H2 host (mkResponse 200 (quoted "{'status':'ok'}")) eq_refl eq_refl)
    as [t2 [H3 H4]].
  exists t1, t2. do 2 eexists. split; [exact H1|]. split; [apply H3|].
  apply (H4 (JObject [(js "status", JString (js "ok"))]) eq_refl host 2 st).
Defined.

(** C4.  [sendCarNumber] with a car number staged suspends on its request,
    the state untouched.  When the request is rejected (the network
    failed) or answered outside 2xx, the handler resumes only to log and
    alert: the state it resumes in, [carNumber] included, is the state it
    leaves. *)
Theorem sendCarNumber_failure_keeps_identifier
    (car : jstring) (now : Z) (st : AppState) :
  car <> [] ->
  let '(url, init) := send_request car now in
  exists t,
    run now (App.sendCarNumber car) st = (st, [Requested url init], Suspended t) /\
    (forall (host : Host) (e : Error),
        host _ (fetch url init) = Rejected e ->
        forall now1 st1,
          resume now1 host t st1 = (st1, send_failure e, Finished)) /\
    (forall (host : Host) (r : Response),
        host _ (fetch url init) = Fulfilled r -> ok r = false ->
        forall now1 st1,
          resume now1 host t st1
          = (st1, send_failure (new_Error "Failed to send car number"), Finished)).
Proof.
  intros Hcar. apply truthy_nonempty in Hcar.
  unfold send_request, App.sendCarNumber. rewrite Hcar.
  run_cbn. eexists. split; [reflexivity|]. split.
  - intros host e Hfetch now1 st1. run_cbn. rewrite Hfetch. reflexivity.
  - intros host r Hfetch Hok now1 st1. run_cbn. rewrite Hfetch. run_cbn.
    rewrite Hok. reflexivity.
Qed.

(** A send that meets a dead network, and one that is answered with a 500:
    the staged number is still there. *)
Lemma sendCarNumber_failure_keeps_identifier_witness :
  let st := mkApp [] (js "CAR12345") None in
  let down := mkError (js "TypeError") (js "Network request failed") in
  exists t,
    run 0 (App.sendCarNumber (js "CAR12345")) st
    = (st, [Requested (fst (send_request (js "CAR12345") 0))
                      (snd (send_request (js "CAR12345") 0))], Suspended t) /\
    resume 1 (host_of (Rejected down) (js "granted") (mkPicked true [])) t st
    = (st, send_failure down, Finished) /\
    resume 1 (host_of (Fulfilled (mkResponse 500 [])) (js "granted") (mkPicked true []))
           t st
    = (st, send_failure (new_Error "Failed to send car number"), Finished).
Proof.
  intros st down.
  destruct (sendCarNumber_failure_keeps_identifier (js "CAR12345") 0 st)
    as [t [H1 [H2 H3]]]; [discriminate|].
  exists t. split; [exact H1|]. split.
  - apply (H2 (host_of (Rejected down) (js "granted") (mkPicked true [])) down
              eq_refl 1 st).
  - apply (H3 (host_of (Fulfilled (mkResponse 500 [])) (js "granted")
                       (mkPicked true []))
              (mkResponse 500 []) eq_refl eq_refl 1 st).
Defined.

(** C5.  [uploadImage] with no image staged ([image] is [null], or the
    empty string, which [!image] treats alike): one alert, no request, no
    suspension, and the state is the one it started from. *)
Theorem uploadImage_without_image
    (image : option jstring) (carNumber : jstring) (now : Z) (st : AppState) :
  truthy_opt image = false ->
  run now (App.uploadImage image carNumber) st
  = (st, [Alerted (js "Error") (js "Please select an image first")], Finished).
Proof.
  intros H. unfold App.uploadImage. rewrite H. reflexivity.
Qed.

Lemma uploadImage_without_image_witness :
  run 0 (App.uploadImage None (js "CAR12345")) (mkApp [] (js "CAR12345") None)
  = (mkApp [] (js "CAR12345") None,
     [Alerted (js "Error") (js "Please select an image first")], Finished).
Proof.
  apply (uploadImage_without_image None (js "CAR12345") 0
           (mkApp [] (js "CAR12345") None)).
  reflexivity.
Defined.

(** C6.  [onChangeText text] stages the first 8 code units of [text] and
    touches nothing else; the result is never longer than 8, it is [text]
    itself when [text] is no longer than 8, and ["ABCDEFGHIJ"] is staged as
    ["ABCDEFGH"]. *)
Theorem onChangeText_truncates (text : jstring) (now : Z) (st : AppState) :
  run now (App.onChangeText text) st
  = (mkApp (messages st) (firstn 8 text) (image st), [], Finished) /\
  (length (firstn 8 text) <= 8)%nat /\
  ((length text <= 8)%nat -> firstn 8 text = text) /\
  carNumber (fst (fst (run now (App.onChangeText (js "ABCDEFGHIJ")) st)))
  = js "ABCDEFGH".
Proof.
  repeat split.
  - unfold App.onChangeText. cbn [act run perform].
    change 8 with (Z.of_nat 8). rewrite slice_prefix. reflexivity.
  - rewrite length_firstn. lia.
  - intros H. now apply firstn_all2.
Qed.

Lemma onChangeText_truncates_witness :
  firstn 8 (js "CAR12345") = js "CAR12345".
Proof.
  apply (proj1 (proj2 (proj2 (onChangeText_truncates (js "CAR12345") 0 initial)))).
  simpl. lia.
Defined.

(** C7.  [sendCarNumber] on the empty string: one alert, no request, the
    state as it was.  On any other string: the request goes out and the
    handler suspends; it resumes to end with [carNumber] set to [""] when
    the response is a 2xx, and with the state it resumed in otherwise. *)
Theorem sendCarNumber_validates_then_clears_on_ok :
  (forall now st,
      run now (App.sendCarNumber []) st
      = (st, [Alerted (js "Error") (js "Please enter a car number")], Finished)) /\
  (forall car now st,
      car <> [] ->
      let '(url, init) := send_request car now in
      exists t,
        run now (App.sendCarNumber car) st
        = (st, [Requested url init], Suspended t) /\
        forall (host : Host) now1 st1,
        exists out,
          resume now1 host t st1
          = (match host _ (fetch url init) with
             | Fulfilled r =>
                 if ok r then mkApp (messages st1) [] (image st1) else st1
             | Rejected _ => st1
             end, out, Finished)).
Proof.
  split; [reflexivity|].
  intros car now st Hcar. apply truthy_nonempty in Hcar.
  unfold send_request, App.sendCarNumber. rewrite Hcar.
  run_cbn. eexists. split; [reflexivity|].
  intros host now1 st1. run_cbn.
  destruct (host Response _) as [r|e]; run_cbn.
  - destruct (ok r); run_cbn; eexists; reflexivity.
  - eexists; reflexivity.
Qed.

Lemma sendCarNumber_validates_then_clears_on_ok_witness :
  let st := mkApp [] (js "XYZ1") (Some (js "file:///photo.jpg")) in
  exists t out,
    run 0 (App.sendCarNumber (js "XYZ1")) st
    = (st, [Requested (fst (send_request (js "XYZ1") 0))
                      (snd (send_request (js "XYZ1") 0))], Suspended t) /\
    resume 1 (host_of (Fulfilled (mkResponse 201 [])) (js "granted") (mkPicked true []))
           t st
    = (mkApp [] [] (Some (js "file:///photo.jpg")), out, Finished).
Proof.
  intros st.
  destruct (proj2 sendCarNumber_validates_then_clears_on_ok (js "XYZ1") 0 st)
    as [t [H1 H2]]; [discriminate|].
  destruct (H2 (host_of (Fulfilled (mkResponse 201 [])) (js "granted")
                        (mkPicked true [])) 1 st) as [out H3].
  exists t, out. split; [exact H1 | exact H3].
Defined.

(** C8.  With a car number [c] staged, [sendCarNumber] posts to
    [/messages/], as [application/json], a text that [JSON.parse] reads as
    the object of exactly three fields: [message], the string
    ["Car number submitted: "] followed by [c]; [timestamp], the ISO-8601
    instant of the clock at the call; [car_number], [c] itself.  Any
    response with a status from 200 to 299 ends the handler on its success
    path. *)
Theorem sendCarNumber_request (car : jstring) (now : Z) (st : AppState) :
  car <> [] ->
  let text := Stringify.stringify (App.car_number_message car now) in
  let url := SERVER_URL ++ js "/messages/" in
  let init := mkInit (js "POST") [(js "Content-Type", js "application/json")]
                     (TextBody text) in
  exists t,
    run now (App.sendCarNumber car) st = (st, [Requested url init], Suspended t) /\
    JSON.parse text
    = Some (JObject [(js "message", JString (js "Car number submitted: " ++ car));
                     (js "timestamp", JString (Date.toISOString now));
                     (js "car_number", JString car)]) /\
    ISO_instant (Date.toISOString now) = true /\
    forall (host : Host) (r : Response),
      host _ (fetch url init) = Fulfilled r ->
      200 <= status r <= 299 ->
      forall now1 st1,
        resume now1 host t st1
        = (mkApp (messages st1) [] (image st1),
           [Alerted (js "Success") (js "Car number sent successfully")],
           Finished).
Proof.
  intros Hcar. apply truthy_nonempty in Hcar.
  unfold App.sendCarNumber. rewrite Hcar. run_cbn.
  eexists. split; [reflexivity|]. split; [|split].
  - unfold App.car_number_message. now apply parse_three_strings.
  - apply toISOString_shape.
  - intros host r Hfetch [Hlo Hhi] now1 st1. run_cbn. rewrite Hfetch. run_cbn.
    unfold ok. apply Z.leb_le in Hlo, Hhi. rewrite Hlo, Hhi. reflexivity.
Qed.

Lemma sendCarNumber_request_witness :
  exists t,
    run 1704067200000 (App.sendCarNumber (js "CAR12345")) initial
    = (initial,
       [Requested (SERVER_URL ++ js "/messages/")
          (mkInit (js "POST") [(js "Content-Type", js "application/json")]
             (TextBody (quoted
                "{'message':'Car number submitted: CAR12345','timestamp':'2024-01-01T00:00:00.000Z','car_number':'CAR12345'}")))],
       Suspended t) /\
    resume 1704067200123
      (host_of (Fulfilled (mkResponse 204 [])) (js "granted") (mkPicked true []))
      t (mkApp [] (js "CAR12345") None)
    = (mkApp [] [] None,
       [Alerted (js "Success") (js "Car number sent successfully")], Finished).
Proof.
  destruct (sendCarNumber_request (js "CAR12345") 1704067200000 initial)
    as [t [H1 [_ [_ H2]]]]; [discriminate|].
  exists t. split; [exact H1|].
  apply (H2 (host_of (Fulfilled (mkResponse 204 [])) (js "granted")
                     (mkPicked true []))
            (mkResponse 204 [])).
  - reflexivity.
  - simpl. lia.
Defined.

(** C9.  Neither [uploadImage] nor [sendCarNumber] reaches [setMessages] on
    any of its paths; in a reachable system a turn whose event is not a
    push frame leaves the feed as it is; and every entry of the feed after
    a history from [boot] is the value of a frame that history delivered. *)
Theorem feed_grows_by_push_only :
  (forall img car, feed_silent (App.uploadImage img car)) /\
  (forall car, feed_silent (App.sendCarNumber car)) /\
  (forall sys, reachable sys ->
     forall now ev, (forall data, ev <> WsMessage data) ->
       messages (app (step now sys ev)) = messages (app sys)) /\
  (forall history entry,
      In entry (messages (app (exec boot history))) ->
      exists now data,
        In (now, WsMessage data) history /\ JSON.parse data = Some entry).
Proof.
  split; [exact uploadImage_silent|]. split; [exact sendCarNumber_silent|]. split.
  - intros sys Hr now ev Hev.
    destruct (step_feed now sys ev (reachable_quiet sys Hr)) as [_ Hm].
    rewrite Hm. destruct ev; simpl; try apply app_nil_r.
    now destruct (Hev data).
  - intros history entry Hin.
    destruct (exec_feed history boot boot_quiet) as [_ Hm].
    rewrite Hm in Hin. simpl in Hin. now apply pushed_origin.
Qed.

(** A push, then a car number typed, sent and acknowledged: the send put
    nothing in the feed, whose one entry is the pushed one. *)
Lemma feed_grows_by_push_only_witness :
  let hello := quoted "{'message':'hello','timestamp':'2024-01-01T00:00:00Z'}" in
  let history :=
    [(1, WsMessage hello); (2, ChangeText (js "XYZ1")); (3, PressSend);
     (4, Settle 0 (host_of (Fulfilled (mkResponse 200 [])) (js "granted")
                           (mkPicked true [])))] in
  app (exec boot history)
  = mkApp [JObject [(js "message", JString (js "hello"));
                    (js "timestamp", JString (js "2024-01-01T00:00:00Z"))]]
          [] None /\
  exists now data,
    In (now, WsMessage data) history /\
    JSON.parse data
    = Some (JObject [(js "message", JString (js "hello"));
                     (js "timestamp", JString (js "2024-01-01T00:00:00Z"))]).
Proof.
  intros hello history. split; [reflexivity|].
  apply (proj2 (proj2 (proj2 feed_grows_by_push_only)) history).
  left. reflexivity.
Defined.

(** C10.  The form [uploadImage] sends holds the field [car_number] exactly
    when the staged car number is not the empty string: with [""] staged
    the form is the file alone, otherwise the file and then the number. *)
Theorem uploadImage_car_number_field
    (img : option jstring) (car : jstring) (now : Z) (st : AppState) :
  truthy_opt img = true ->
  let file := (js "file", FormFile img (js "image/jpeg") (js "photo.jpg")) in
  exists t form,
    run now (App.uploadImage img car) st
    = (st, [Logged (js "Uploading image:") [print_opt img];
            Requested (SERVER_URL ++ js "/upload-image/")
                      (mkInit (js "POST") [] (MultipartBody form))],
       Suspended t) /\
    (In (js "car_number") (map fst form) <-> car <> []) /\
    (car = [] -> form = [file]) /\
    (car <> [] -> form = [file; (js "car_number", FormString car)]).
Proof.
  intros Himg file. unfold App.uploadImage. rewrite Himg. run_cbn.
  eexists. exists (App.upload_form img car). split; [reflexivity|].
  unfold App.upload_form, append. destruct car as [|c car]; simpl.
  - repeat split; try congruence. intros [H|[]]. discriminate H.
  - repeat split; try congruence. intros _. right. now left.
Qed.

Lemma uploadImage_car_number_field_witness :
  let img := Some (js "file:///photo.jpg") in
  exists t,
    run 0 (App.uploadImage img []) initial
    = (initial,
       [Logged (js "Uploading image:") [print_opt img];
        Requested (SERVER_URL ++ js "/upload-image/")
          (mkInit (js "POST") []
             (MultipartBody
                [(js "file", FormFile img (js "image/jpeg") (js "photo.jpg"))]))],
       Suspended t).
Proof.
  intros img.
  destruct (uploadImage_car_number_field img [] 0 initial eq_refl)
    as [t [form [H1 [_ [H2 _]]]]].
  exists t. rewrite (H2 eq_refl) in H1. exact H1.
Defined.

(** * Further properties of the handlers *)

Lemma not_granted (s : jstring) :
  s <> js "granted" -> jstring_eqb s (js "granted") = false.
Proof.
  intros H. destruct (jstring_eqb s (js "granted")) eqn:E; [|reflexivity].
  apply jstring_eqb_eq in E. contradiction.
Qed.

Lemma is_granted (s : jstring) :
  s = js "granted" -> jstring_eqb s (js "granted") = true.
Proof. intros H. now apply jstring_eqb_eq. Qed.

(** X1.  [pickImage] first asks for the media-library permission and
    suspends.  When the answer is anything but ["granted"] it alerts and
    ends without opening the picker; when the query itself fails it logs
    and alerts.  Either way the state it resumes in is the state it
    leaves. *)
Theorem pickImage_needs_permission (now : Z) (st : AppState) :
  exists t,
    run now App.pickImage st = (st, [], Suspended t) /\
    (forall (host : Host) (p : PermissionResponse),
        host _ getMediaLibraryPermissionsAsync = Fulfilled p ->
        permission p <> js "granted" ->
        forall now1 st1,
          resume now1 host t st1
          = (st1,
             [Alerted (js "Permission Required")
                (js "Please grant media library permission to pick images")],
             Finished)) /\
    (forall (host : Host) (e : Error),
        host _ getMediaLibraryPermissionsAsync = Rejected e ->
        forall now1 st1,
          resume now1 host t st1 = (st1, pick_failure e, Finished)).
Proof.
  unfold App.pickImage. run_cbn. eexists. split; [reflexivity|]. split.
  - intros host p Hp Hng now1 st1. run_cbn. rewrite Hp. run_cbn.
    rewrite (not_granted _ Hng). reflexivity.
  - intros host e He now1 st1. run_cbn. rewrite He. reflexivity.
Qed.

Lemma pickImage_needs_permission_witness :
  let st := mkApp [] (js "CAR12345") (Some (js "file:///old.jpg")) in
  let host := host_of (Rejected (new_Error "unused")) (js "denied") (mkPicked true []) in
  exists t,
    run 0 App.pickImage st = (st, [], Suspended t) /\
    resume 1 host t st
    = (st,
       [Alerted (js "Permission Required")
          (js "Please grant media library permission to pick images")],
       Finished).
Proof.
  intros st host.
  destruct (pickImage_needs_permission 0 st) as [t [H1 [H2 _]]].
  exists t. split; [exact H1|].
  apply (H2 host (mkPermission (js "denied")) eq_refl).
  discriminate.
Defined.

(** X2.  With the permission granted [pickImage] opens the picker and
    suspends again.  A cancelled pick changes nothing and says nothing; a
    pick with assets stages the uri of the first one, replacing whatever
    image was staged, and leaves the car number and the feed alone; a pick
    that is not cancelled yet has no asset, and a picker that fails, end in
    the [catch] block with the state unchanged. *)
Theorem pickImage_stages_first_asset (now : Z) (st : AppState) :
  exists t,
    run now App.pickImage st = (st, [], Suspended t) /\
    forall (host : Host) (p : PermissionResponse),
      host _ getMediaLibraryPermissionsAsync = Fulfilled p ->
      permission p = js "granted" ->
      exists t2,
        (forall now1 st1, resume now1 host t st1 = (st1, [], Suspended t2)) /\
        forall (host2 : Host) now2 st2,
          resume now2 host2 t2 st2
          = match host2 _ launchImageLibraryAsync with
            | Fulfilled result =>
                if canceled result then (st2, [], Finished)
                else
                  match assets result with
                  | a :: _ =>
                      (mkApp (messages st2) (carNumber st2) (Some (uri a)),
                       [Logged (js "Image picked successfully:") [PString (uri a)]],
                       Finished)
                  | [] => (st2, pick_failure no_asset, Finished)
                  end
            | Rejected e => (st2, pick_failure e, Finished)
            end.
Proof.
  unfold App.pickImage. run_cbn. eexists. split; [reflexivity|].
  intros host p Hp Hg. eexists. split.
  - intros now1 st1. run_cbn. rewrite Hp. run_cbn.
    rewrite (is_granted _ Hg). reflexivity.
  - intros host2 now2 st2. run_cbn.
    destruct (host2 ImagePickerResult launchImageLibraryAsync) as [result|e];
      run_cbn; [|reflexivity].
    destruct (canceled result); run_cbn; [reflexivity|].
    unfold App.first_uri. destruct (assets result) as [|a rest]; reflexivity.
Qed.

Lemma pickImage_stages_first_asset_witness :
  let st := mkApp [] (js "CAR12345") (Some (js "file:///old.jpg")) in
  let host := host_of (Rejected (new_Error "unused")) (js "granted")
                (mkPicked false [mkAsset (js "file:///new.jpg");
                                 mkAsset (js "file:///other.jpg")]) in
  exists t t2,
    run 0 App.pickImage st = (st, [], Suspended t) /\
    resume 1 host t st = (st, [], Suspended t2) /\
    resume 2 host t2 st
    = (mkApp [] (js "CAR12345") (Some (js "file:///new.jpg")),
       [Logged (js "Image picked successfully:") [PString (js "file:///new.jpg")]],
       Finished).
Proof.
  intros st host.
  destruct (pickImage_stages_first_asset 0 st) as [t [H1 H2]].
  destruct (H2 host (mkPermission (js "granted")) eq_refl eq_refl) as [t2 [H3 H4]].
  exists t, t2. split; [exact H1|]. split; [apply H3|]. apply (H4 host 2 st).
Defined.

(** X3.  [takePhoto] first asks for the camera permission and suspends.
    Any answer but ["granted"] ends it with an alert and without opening the
    camera; a failing query ends it in the [catch] block.  The state is
    left as it is. *)
Theorem takePhoto_needs_permission (now : Z) (st : AppState) :
  exists t,
    run now App.takePhoto st = (st, [], Suspended t) /\
    (forall (host : Host) (p : PermissionResponse),
        host _ getCameraPermissionsAsync = Fulfilled p ->
        permission p <> js "granted" ->
        forall now1 st1,
          resume now1 host t st1
          = (st1,
             [Alerted (js "Permission Required")
                (js "Please grant camera permission to take photos")],
             Finished)) /\
    (forall (host : Host) (e : Error),
        host _ getCameraPermissionsAsync = Rejected e ->
        forall now1 st1,
          resume now1 host t st1 = (st1, photo_failure e, Finished)).
Proof.
  unfold App.takePhoto. run_cbn. eexists. split; [reflexivity|]. split.
  - intros host p Hp Hng now1 st1. run_cbn. rewrite Hp. run_cbn.
    rewrite (not_granted _ Hng). reflexivity.
  - intros host e He now1 st1. run_cbn. rewrite He. reflexivity.
Qed.

Lemma takePhoto_needs_permission_witness :
  let st := mkApp [] [] None in
  let down := new_Error "camera service unavailable" in
  let host : Host :=
    fun T c =>
      match c in Call T return Settled T with
      | getCameraPermissionsAsync => Rejected down
      | c' => host_of (Rejected down) (js "granted") (mkPicked true []) _ c'
      end in
  exists t,
    run 0 App.takePhoto st = (st, [], Suspended t) /\
    resume 1 host t st = (st, photo_failure down, Finished).
Proof.
  intros st down host.
  destruct (takePhoto_needs_permission 0 st) as [t [H1 [_ H3]]].
  exists t. split; [exact H1|].
  apply (H3 host down eq_refl).
Defined.

(** X4.  With the permission granted [takePhoto] opens the camera and
    suspends again.  A cancelled shot changes nothing; a shot with assets
    stages the uri of the first one over whatever was staged and leaves the
    car number and the feed alone; a shot without asset, and a camera that
    fails, end in the [catch] block with the state unchanged. *)
Theorem takePhoto_stages_first_asset (now : Z) (st : AppState) :
  exists t,
    run now App.takePhoto st = (st, [], Suspended t) /\
    forall (host : Host) (p : PermissionResponse),
      host _ getCameraPermissionsAsync = Fulfilled p ->
      permission p = js "granted" ->
      exists t2,
        (forall now1 st1, resume now1 host t st1 = (st1, [], Suspended t2)) /\
        forall (host2 : Host) now2 st2,
          resume now2 host2 t2 st2
          = match host2 _ launchCameraAsync with
            | Fulfilled result =>
                if canceled result then (st2, [], Finished)
                else
                  match assets result with
                  | a :: _ =>
                      (mkApp (messages st2) (carNumber st2) (Some (uri a)),
                       [Logged (js "Photo taken successfully:") [PString (uri a)]],
                       Finished)
                  | [] => (st2, photo_failure no_asset, Finished)
                  end
            | Rejected e => (st2, photo_failure e, Finished)
            end.
Proof.
  unfold App.takePhoto. run_cbn. eexists. split; [reflexivity|].
  intros host p Hp Hg. eexists. split.
  - intros now1 st1. run_cbn. rewrite Hp. run_cbn.
    rewrite (is_granted _ Hg). reflexivity.
  - intros host2 now2 st2. run_cbn.
    destruct (host2 ImagePickerResult launchCameraAsync) as [result|e];
      run_cbn; [|reflexivity].
    destruct (canceled result); run_cbn; [reflexivity|].
    unfold App.first_uri. destruct (assets result) as [|a rest]; reflexivity.
Qed.

Lemma takePhoto_stages_first_asset_witness :
  let st := mkApp [] (js "CAR12345") None in
  let host := host_of (Rejected (new_Error "unused")) (js "granted")
                      (mkPicked false []) in
  exists t t2,
    run 0 App.takePhoto st = (st, [], Suspended t) /\
    resume 1 host t st = (st, [], Suspended t2) /\
    resume 2 host t2 st = (st, photo_failure no_asset, Finished).
Proof.
  intros st host.
  destruct (takePhoto_stages_first_asset 0 st) as [t [H1 H2]].
  destruct (H2 host (mkPermission (js "granted")) eq_refl eq_refl) as [t2 [H3 H4]].
  exists t, t2. split; [exact H1|]. split; [apply H3|]. apply (H4 host 2 st).
Defined.

(** X5.  The permission request of the mount effect asks for the camera,
    then, whatever the answer, for the media library.  It alerts when
    either answer is not ["granted"], is silent when both are, and ends in
    its [catch] block when a request fails.  It never changes the state. *)
Theorem requestPermissions_asks_for_both (now : Z) (st : AppState) :
  exists t,
    run now App.requestPermissions st = (st, [], Suspended t) /\
    (forall (host : Host) (camera : PermissionResponse),
        host _ requestCameraPermissionsAsync = Fulfilled camera ->
        exists t2,
          (forall now1 st1, resume now1 host t st1 = (st1, [], Suspended t2)) /\
          forall (host2 : Host) now2 st2,
            resume now2 host2 t2 st2
            = (st2,
               match host2 _ requestMediaLibraryPermissionsAsync with
               | Fulfilled media =>
                   if jstring_eqb (permission camera) (js "granted")
                      && jstring_eqb (permission media) (js "granted")
                   then []
                   else [Alerted (js "Permission Required")
                           (js "Camera and media library permissions are required to use this app.")]
               | Rejected e => permissions_failure e
               end,
               Finished)) /\
    (forall (host : Host) (e : Error),
        host _ requestCameraPermissionsAsync = Rejected e ->
        forall now1 st1,
          resume now1 host t st1 = (st1, permissions_failure e, Finished)).
Proof.
  unfold App.requestPermissions. run_cbn. eexists. split; [reflexivity|]. split.
  - intros host camera Hc. eexists. split.
    + intros now1 st1. run_cbn. rewrite Hc. reflexivity.
    + intros host2 now2 st2. run_cbn.
      destruct (host2 PermissionResponse requestMediaLibraryPermissionsAsync)
        as [media|e]; run_cbn; [|reflexivity].
      destruct (jstring_eqb (permission camera) (js "granted"));
        destruct (jstring_eqb (permission media) (js "granted")); reflexivity.
  - intros host e He now1 st1. run_cbn. rewrite He. reflexivity.
Qed.

Lemma requestPermissions_asks_for_both_witness :
  let host := host_of (Rejected (new_Error "unused")) (js "denied") (mkPicked true []) in
  exists t t2,
    run 0 App.requestPermissions initial = (initial, [], Suspended t) /\
    resume 1 host t initial = (initial, [], Suspended t2) /\
    resume 2 host t2 initial
    = (initial,
       [Alerted (js "Permission Required")
          (js "Camera and media library permissions are required to use this app.")],
       Finished).
Proof.
  intros host.
  destruct (requestPermissions_asks_for_both 0 initial) as [t [H1 [H2 _]]].
  destruct (H2 host (mkPermission (js "denied")) eq_refl) as [t2 [H3 H4]].
  exists t, t2. split; [exact H1|]. split; [apply H3|]. apply (H4 host 2 initial).
Defined.

(** X6.  An upload that fails keeps the image.  With an image staged, a
    rejected request, a response outside 2xx, and a 2xx response whose body
    is not a JSON text all end in the [catch] block: a console line, the
    failure alert, and the state the handler resumed in, image included. *)
Theorem uploadImage_failure_keeps_image
    (img : option jstring) (car : jstring) (now : Z) (st : AppState) :
  truthy_opt img = true ->
  let '(url, init) := upload_request img car in
  exists t,
    run now (App.uploadImage img car) st
    = (st, [Logged (js "Uploading image:") [print_opt img]; Requested url init],
       Suspended t) /\
    (forall (host : Host) (e : Error),
        host _ (fetch url init) = Rejected e ->
        forall now1 st1,
          resume now1 host t st1 = (st1, upload_failure e, Finished)) /\
    (forall (host : Host) (r : Response),
        host _ (fetch url init) = Fulfilled r -> ok r = false ->
        forall now1 st1,
          resume now1 host t st1
          = (st1, upload_failure (new_Error "Failed to upload image"), Finished)) /\
    (forall (host : Host) (r : Response),
        host _ (fetch url init) = Fulfilled r -> ok r = true ->
        JSON.parse (text r) = None ->
        exists t2,
          (forall now1 st1, resume now1 host t st1 = (st1, [], Suspended t2)) /\
          forall (host2 : Host) now2 st2,
            resume now2 host2 t2 st2
            = (st2, upload_failure (SyntaxError "JSON Parse error"), Finished)).
Proof.
  intros Himg. unfold upload_request, App.uploadImage. rewrite Himg.
  run_cbn. eexists. split; [reflexivity|]. split; [|split].
  - intros host e He now1 st1. run_cbn. rewrite He. reflexivity.
  - intros host r Hr Hok now1 st1. run_cbn. rewrite Hr. run_cbn.
    rewrite Hok. reflexivity.
  - intros host r Hr Hok Hbody. eexists. split.
    + intros now1 st1. run_cbn. rewrite Hr. run_cbn. rewrite Hok. reflexivity.
    + intros host2 now2 st2. run_cbn. rewrite Hbody. reflexivity.
Qed.

Lemma uploadImage_failure_keeps_image_witness :
  let st := mkApp [] (js "CAR12345") (Some (js "file:///photo.jpg")) in
  let host := host_of (Fulfilled (mkResponse 200 (js "<html>OK</html>")))
                      (js "granted") (mkPicked true []) in
  exists t t2 out,
    run 0 (App.uploadImage (image st) (carNumber st)) st = (st, out, Suspended t) /\
    resume 1 host t st = (st, [], Suspended t2) /\
    resume 2 host t2 st
    = (st, upload_failure (SyntaxError "JSON Parse error"), Finished).
Proof.
  intros st host.
  destruct (uploadImage_failure_keeps_image
              (Some (js "file:///photo.jpg")) (js "CAR12345") 0 st eq_refl)
    as [t [H1 [_ [_ H4]]]].
  destruct (H4 host (mkResponse 200 (js "<html>OK</html>")) eq_refl eq_refl eq_refl)
    as [t2 [H5 H6]].
  exists t, t2. eexists. split; [exact H1|]. split; [apply H5|].
  apply (H6 host 2 st).
Defined.

(** ** Safety of the event loop *)

Section GuardFacts.

Variable Inv : AppState -> Prop.
Variable Out : Output -> Prop.
Variable Exn : Error -> Prop.

Lemma run_guarded (now : Z) (p : Prog unit) :
  guarded Inv Out Exn p ->
  forall st,
    Inv st ->
    Inv (fst (fst (run now p st))) /\
    Forall Out (snd (fst (run now p st))) /\
    match snd (run now p st) with
    | Finished => True
    | Escaped e => Exn e
    | Suspended t => task_guarded Inv Out Exn t
    end.
Proof.
  induction 1 as [a | e He | T o k Ho Hk IH | T c k Hc Hk IH]; intros st HI;
    simpl; auto.
  destruct (Ho now st HI) as [HI1 HO1].
  destruct (perform now o st) as [[st1 out1] x]. simpl in HI1, HO1.
  specialize (IH x st1 HI1).
  destruct (run now (k x) st1) as [[st2 out2] s]. simpl in *.
  destruct IH as [HI2 [HO2 Hs]]. repeat split; auto.
  apply Forall_app. now split.
Qed.

Lemma spawn_guarded (now : Z) (sys : System) (p : Prog unit) :
  guarded Inv Out Exn p -> system_guarded Inv Out Exn sys ->
  system_guarded Inv Out Exn (spawn now sys p).
Proof.
  intros Hp [HI [HP HC]]. unfold spawn.
  destruct (run_guarded now p Hp (app sys) HI) as [HI' [HO' Hs]].
  destruct (run now p (app sys)) as [[st out] s]. simpl in *.
  assert (Hout : Forall (line_guarded Out Exn) out).
  { eapply Forall_impl; [|exact HO']. intros o Ho. now left. }
  destruct s as [| e | t]; simpl; repeat split; simpl; auto;
    repeat (apply Forall_app; split); auto.
  constructor; [|constructor]. right. now exists e.
Qed.

Lemma spawn_all_guarded (now : Z) (ps : list (Prog unit)) :
  Forall (guarded Inv Out Exn) ps ->
  forall sys, system_guarded Inv Out Exn sys ->
    system_guarded Inv Out Exn (fold_left (spawn now) ps sys).
Proof.
  induction 1 as [|p ps Hp Hps IH]; intros sys Hs; simpl; auto.
  apply IH. now apply spawn_guarded.
Qed.

Hypothesis handlers_guarded :
  forall ev st, Inv st -> Forall (guarded Inv Out Exn) (handlers ev st).

Lemma step_guarded (now : Z) (sys : System) (ev : Event) :
  system_guarded Inv Out Exn sys -> system_guarded Inv Out Exn (step now sys ev).
Proof.
  intros Hs.
  assert (Hfold : system_guarded Inv Out Exn
                    (fold_left (spawn now) (handlers ev (app sys)) sys)).
  { apply spawn_all_guarded; [|exact Hs]. apply handlers_guarded. apply Hs. }
  destruct ev; try exact Hfold.
  unfold step.
  destruct (nth_error (pending sys) i) as [[T c k]|] eqn:Hi; [|exact Hs].
  destruct Hs as [HI [HP HC]].
  apply spawn_guarded.
  - assert (Hk : task_guarded Inv Out Exn (task c k)).
    { rewrite Forall_forall in HP. apply HP. eapply nth_error_In; eauto. }
    apply Hk.
  - repeat split; simpl; auto. now apply remove_nth_Forall.
Qed.

Lemma reachable_guarded (sys : System) :
  Inv initial -> reachable sys -> system_guarded Inv Out Exn sys.
Proof.
  intros H0. induction 1 as [|now sys ev _ IH].
  - repeat split; simpl; auto.
  - now apply step_guarded.
Qed.

End GuardFacts.

(** Every handler, as the event loop starts it, is guarded for the audit. *)

Lemma audit_requestPermissions : audit_ok App.requestPermissions.
Proof. unfold audit_ok, App.requestPermissions. audit. Qed.

Lemma audit_pickImage : audit_ok App.pickImage.
Proof. unfold audit_ok, App.pickImage. audit. Qed.

Lemma audit_takePhoto : audit_ok App.takePhoto.
Proof. unfold audit_ok, App.takePhoto. audit. Qed.

Lemma slice_short (text : jstring) : (length (String_slice text 0 8) <= 8)%nat.
Proof.
  change 8 with (Z.of_nat 8). rewrite slice_prefix, length_firstn. lia.
Qed.

Lemma audit_onChangeText (text : jstring) : audit_ok (App.onChangeText text).
Proof.
  unfold audit_ok, App.onChangeText, act. apply guarded_Act; [|intros; apply guarded_Ret].
  intros now st _. split; [apply slice_short | constructor].
Qed.

Lemma audit_onmessage (data : jstring) : audit_ok (App.onmessage data).
Proof.
  unfold audit_ok, App.onmessage, JSON_parse.
  destruct (JSON.parse data); audit.
Qed.

Lemma audit_uploadImage (img : option jstring) (car : jstring) :
  truthy_opt img = true -> (length car <= 8)%nat ->
  audit_ok (App.uploadImage img car).
Proof.
  intros Himg Hcar. unfold audit_ok, App.uploadImage. rewrite Himg.
  cbn [negb bind try_catch act await].
  apply guarded_Act; [audit_op | intros _].
  apply guarded_Await.
  { constructor; [|constructor]. left. now exists img, car. }
  intros s. audit.
Qed.

Lemma audit_sendCarNumber (car : jstring) :
  (length car <= 8)%nat -> audit_ok (App.sendCarNumber car).
Proof.
  intros Hcar. unfold audit_ok, App.sendCarNumber.
  destruct (truthy car) eqn:Ht; cbn [negb bind try_catch act await]; [|audit].
  apply guarded_Act; [audit_op | intros now].
  apply guarded_Await.
  { constructor; [|constructor]. right. exists car, now.
    repeat split; auto. now apply truthy_nonempty. }
  intros s. audit.
Qed.

Lemma handlers_audited (ev : Event) (st : AppState) :
  short_number st -> Forall audit_ok (handlers ev st).
Proof.
  intros Hst. destruct ev; unfold handlers;
    repeat apply Forall_cons; try apply Forall_nil;
    auto using audit_requestPermissions, audit_pickImage, audit_takePhoto,
      audit_onChangeText, audit_onmessage, audit_sendCarNumber.
  - unfold audit_ok, App.connect. audit.
  - unfold audit_ok, App.cleanup. audit.
  - unfold audit_ok, App.onopen. audit.
  - unfold audit_ok, App.onerror. audit.
  - unfold audit_ok, App.onclose. audit.
  - destruct (truthy_opt (image st)) eqn:Himg; [|apply Forall_nil].
    repeat apply Forall_cons; try apply Forall_nil.
    now apply audit_uploadImage.
Qed.

(** What holds of every system the component can reach. *)
Lemma reachable_audited (sys : System) :
  reachable sys -> system_guarded short_number audited parse_error sys.
Proof.
  apply reachable_guarded.
  - exact handlers_audited.
  - unfold short_number. simpl. lia.
Qed.

(** ** Exceptions: what is contained and what escapes *)













(** X7.  Whatever the user types and whatever happens around it, the staged
    car number is never longer than 8 code units: the only values
    [setCarNumber] is given are [text.slice(0, 8)] and [""]. *)
Theorem staged_number_stays_short (history : list (Z * Event)) :
  (length (carNumber (app (exec boot history))) <= 8)%nat.
Proof.
  apply (reachable_audited (exec boot history)).
  apply reachable_exec. constructor.
Qed.


(** X9.  The alert of [uploadImage] for a missing image never shows: the
    button that calls [uploadImage] is rendered only while an image is
    staged, so the guard at the head of [uploadImage] is not reached with a
    falsy image. *)
Theorem missing_image_alert_never_shows (history : list (Z * Event)) :
  ~ In (Alerted (js "Error") (js "Please select an image first"))
       (console (exec boot history)).
Proof.
  intros Hin.
  destruct (reachable_audited (exec boot history)) as [_ [_ Hc]];
    [apply reachable_exec; constructor|].
  rewrite Forall_forall in Hc. destruct (Hc _ Hin) as [Ha | [e [He _]]].
  - now apply Ha.
  - discriminate He.
Qed.



(** X11.  One press, one request at most.  Run from start to end under any
    host, [uploadImage] puts exactly one request on the network when an
    image is staged and none otherwise, [sendCarNumber] exactly one when
    the car number is not empty and none otherwise, whatever the answers:
    a failure is reported, never retried.  The picker, the camera and the
    permission request put none. *)
Theorem one_request_per_press (host : Host) (now : Z) (st : AppState) :
  (forall img car,
      requests (snd (fst (finish host now (App.uploadImage img car) st)))
      = if truthy_opt img then [upload_request img car] else []) /\
  (forall car,
      requests (snd (fst (finish host now (App.sendCarNumber car) st)))
      = if truthy car then [send_request car now] else []) /\
  requests (snd (fst (finish host now App.pickImage st))) = [] /\
  requests (snd (fst (finish host now App.takePhoto st))) = [] /\
  requests (snd (fst (finish host now App.requestPermissions st))) = [].
Proof.
  repeat split.
  - intros img car. unfold App.uploadImage, upload_request.
    destruct (truthy_opt img); finish_all.
  - intros car. unfold App.sendCarNumber, send_request.
    destruct (truthy car); finish_all.
  - unfold App.pickImage. finish_all.
  - unfold App.takePhoto. finish_all.
  - unfold App.requestPermissions. finish_all.
Qed.

(** [finish] is [run] followed by as many [resume]s as it takes, all at the
    same time, under the same host and with no other turn in between. *)
Lemma finish_run (host : Host) (now : Z) (p : Prog unit) :
  forall st,
    finish host now p st
    = match run now p st with
      | (st1, out1, Finished) => (st1, out1, None)
      | (st1, out1, Escaped e) => (st1, out1, Some e)
      | (st1, out1, Suspended (task c k)) =>
          let '(st2, out2, r) := finish host now (k (settle host c)) st1 in
          (st2, out1 ++ out2, r)
      end.
Proof.
  induction p as [a | e | T o k IH | T c k IH]; intros st; simpl; auto.
  destruct (perform now o st) as [[st1 out1] x].
  rewrite IH.
  destruct (run now (k x) st1) as [[st2 out2] s].
  destruct s as [| e | [T' c' k']]; try reflexivity.
  destruct (finish host now (k' (settle host c')) st2) as [[st3 out3] r].
  now rewrite app_assoc.
Qed.

(** * Properties of the render *)

Example ToString_array :
  ToString example_engine
    (JArray [JNumber (js "1"); JArray [JNumber (js "2"); JString (js "x")];
             JNull; JBool true; JObject []])
  = Returned (js "1,2,x,,true,[object Object]").
Proof. vm_compute. reflexivity. Qed.

Example renderMessage_server_image :
  renderMessage example_engine
    (JObject [(js "client_id", JString (js "server"));
              (js "image_path", JString (js "a.jpg"));
              (js "car_number", JString (js "CAR12345"))]) 3
  = Returned
      (View (Some 3%nat) [styles.messageContainer; styles.serverMessage]
         [Image (js "http://192.168.1.108:8000/images/a.jpg")
                [styles.messageImage] (js "cover");
          Value None]).
Proof. vm_compute. reflexivity. Qed.

Lemma Get_not_null (msg : json) (field : string) (v : option json) :
  Get msg field = Returned v -> msg <> JNull.
Proof. intros H ->. discriminate H. Qed.

Lemma Get_total (msg : json) (field : string) :
  msg <> JNull -> exists v, Get msg field = Returned v.
Proof. intros H. destruct msg; try congruence; eexists; reflexivity. Qed.

Lemma renderMessage_null (e : Engine) (index : nat) :
  exists err, renderMessage e JNull index = Threw err.
Proof. eexists. reflexivity. Qed.

Lemma render_from_null (e : Engine) (msgs : list json) :
  In JNull msgs -> forall index, exists err, render_from e index msgs = Threw err.
Proof.
  induction msgs as [|msg rest IH]; intros Hin index; [contradiction|].
  simpl. destruct (renderMessage e msg index) as [node|err] eqn:Hr.
  - destruct Hin as [-> | Hin].
    + destruct (renderMessage_null e index) as [err Herr]. congruence.
    + destruct (IH Hin (S index)) as [err Herr]. exists err.
      simpl. now rewrite Herr.
  - now exists err.
Qed.

(** X12.  A push frame whose text is the JSON [null] is accepted into the
    feed like any other, and from then on the render of the feed throws:
    [renderMessage] reads [msg.client_id] of [null]. *)
Theorem null_frame_breaks_render
    (e : Engine) (history : list (Z * Event)) (now : Z) (data : jstring) :
  In (now, WsMessage data) history ->
  JSON.parse data = Some JNull ->
  In JNull (messages (app (exec boot history))) /\
  exists err, renderMessages e (app (exec boot history)) = Threw err.
Proof.
  intros Hin Hnull.
  assert (Hfeed : In JNull (messages (app (exec boot history)))).
  { destruct (exec_feed history boot boot_quiet) as [_ Hm]. rewrite Hm. simpl.
    unfold pushed. apply in_flat_map. exists (now, WsMessage data).
    split; [exact Hin|]. simpl. rewrite Hnull. now left. }
  split; [exact Hfeed|]. unfold renderMessages. now apply render_from_null.
Qed.

Lemma null_frame_breaks_render_witness :
  exists err,
    renderMessages example_engine
      (app (exec boot [(1, WsMessage (quoted "{'message':'hello'}"));
                       (2, WsMessage (js " null "))]))
    = Threw err.
Proof.
  apply (proj2 (null_frame_breaks_render example_engine
                  [(1, WsMessage (quoted "{'message':'hello'}"));
                   (2, WsMessage (js " null "))] 2 (js " null ")
                  ltac:(right; left; reflexivity) eq_refl)).
Defined.

(** Unfolding [renderMessage] on an entry that is not [null]. *)
Lemma renderMessage_unfold (e : Engine) (msg : json) (index : nat)
    (client_id hasImage message car_number stamp : option json) :
  Get msg "client_id" = Returned client_id ->
  Get msg "image_path" = Returned hasImage ->
  Get msg "message" = Returned message ->
  Get msg "car_number" = Returned car_number ->
  Get msg "timestamp" = Returned stamp ->
  renderMessage e msg index
  = (image <~ match hasImage with
              | Some path =>
                  if ToBoolean e hasImage then
                    shown <~ ToString e path ;;
                    Returned (Image (SERVER_URL ++ js "/images/" ++ shown)
                                    [styles.messageImage] (js "cover"))
                  else Returned (Value hasImage)
              | None => Returned (Value hasImage)
              end ;;
     content <~ (if ToBoolean e message then
                   time <~ locale_time e stamp ;;
                   Returned
                     (View None [styles.messageContent]
                        [Text [styles.messageText] [Value message];
                         (if ToBoolean e car_number
                          then Text [styles.carNumber]
                                    [Chars (js "Car: "); Value car_number]
                          else Value car_number);
                         Text [styles.timestamp] [Value (Some (JString time))]])
                 else Returned (Value message)) ;;
     Returned
       (View (Some index)
          [styles.messageContainer;
           if match client_id with
              | Some (JString s) => jstring_eqb s (js "server")
              | _ => false
              end
           then styles.serverMessage else styles.clientMessage]
          [image; content])).
Proof.
  intros H1 H2 H3 H4 H5. unfold renderMessage.
  rewrite H1, H2, H3, H4, H5. reflexivity.
Qed.

(** X13.  The car number and the time of an entry are shown only inside
    its message block.  When [msg.message] is falsy (missing, [null],
    [""], ...) the tree [renderMessage] returns holds no [Text] at all,
    whatever [msg.car_number] is; and the line ["Car: ..."] is in the tree
    exactly when both [msg.message] and [msg.car_number] are truthy. *)
Theorem car_number_needs_message
    (e : Engine) (msg : json) (index : nat) (tree : Node)
    (message car_number : option json) :
  renderMessage e msg index = Returned tree ->
  Get msg "message" = Returned message ->
  Get msg "car_number" = Returned car_number ->
  (ToBoolean e message = false -> texts tree = []) /\
  (In (Text [styles.carNumber] [Chars (js "Car: "); Value car_number]) (texts tree)
   <-> ToBoolean e message = true /\ ToBoolean e car_number = true).
Proof.
  intros Hr Hm Hc.
  pose proof (Get_not_null _ _ _ Hm) as Hnn.
  destruct (Get_total msg "client_id" Hnn) as [client_id H1].
  destruct (Get_total msg "image_path" Hnn) as [hasImage H2].
  destruct (Get_total msg "timestamp" Hnn) as [stamp H5].
  rewrite (renderMessage_unfold e msg index _ _ _ _ _ H1 H2 Hm Hc H5) in Hr.
  destruct (match hasImage with
            | Some path => _
            | None => _
            end) as [image|err] eqn:Himage; [|discriminate Hr].
  assert (Hno : texts image = []).
  { destruct hasImage as [path|]; [|injection Himage as <-; reflexivity].
    destruct (ToBoolean e (Some path)); [|injection Himage as <-; reflexivity].
    destruct (ToString e path); [|discriminate Himage].
    injection Himage as <-. reflexivity. }
  cbn [and_then] in Hr.
  destruct (ToBoolean e message) eqn:Hmsg.
  - destruct (locale_time e stamp) as [time|err]; [|discriminate Hr].
    cbn [and_then] in Hr. injection Hr as <-.
    cbn [texts flat_map]. rewrite Hno. cbn [List.app].
    split; [discriminate|].
    destruct (ToBoolean e car_number) eqn:Hcar; cbn [texts List.app]; split.
    + intros _. now split.
    + intros _. right. now left.
    + intros [H|[H|[]]]; discriminate H.
    + intros [_ H]. discriminate H.
  - cbn [and_then] in Hr. injection Hr as <-.
    cbn [texts flat_map]. rewrite Hno. cbn [List.app].
    split; [reflexivity|]. split; [intros [] | intros [H _]; discriminate H].
Qed.

Lemma car_number_needs_message_witness :
  texts (View (Some 0%nat) [styles.messageContainer; styles.clientMessage]
              [Value None; Value None]) = [].
Proof.
  apply (proj1 (car_number_needs_message example_engine
                  (JObject [(js "client_id", JString (js "mobile_app"));
                            (js "car_number", JString (js "CAR12345"));
                            (js "timestamp", JString (js "2024-01-01T00:00:00Z"))])
                  0 _ None (Some (JString (js "CAR12345")))
                  eq_refl eq_refl eq_refl)).
  reflexivity.
Defined.

(** X14.  [renderMessage] returns a bubble for every entry that is not
    [null] and whose [image_path] and [timestamp] are no arrays or objects,
    as the entries of the protocol are: a [View] keyed by the index, with
    two children, styled as a server message exactly when [msg.client_id]
    is the string ["server"] and as a client message otherwise (a missing
    [client_id] included). *)
Theorem renderMessage_bubble
    (e : Engine) (msg : json) (index : nat) (hasImage stamp : option json) :
  Get msg "image_path" = Returned hasImage -> primitive hasImage ->
  Get msg "timestamp" = Returned stamp -> primitive stamp ->
  exists side image content,
    renderMessage e msg index
    = Returned (View (Some index) [styles.messageContainer; side] [image; content]) /\
    (side = styles.serverMessage \/ side = styles.clientMessage) /\
    (side = styles.serverMessage
     <-> Get msg "client_id" = Returned (Some (JString (js "server")))).
Proof.
  intros H2 Hp2 H5 Hp5.
  pose proof (Get_not_null _ _ _ H2) as Hnn.
  destruct (Get_total msg "client_id" Hnn) as [client_id H1].
  destruct (Get_total msg "message" Hnn) as [message H3].
  destruct (Get_total msg "car_number" Hnn) as [car_number H4].
  rewrite (renderMessage_unfold e msg index _ _ _ _ _ H1 H2 H3 H4 H5), H1.
  assert (Himage : exists image,
             match hasImage with
             | Some path =>
                 if ToBoolean e hasImage then
                   shown <~ ToString e path ;;
                   Returned (Image (SERVER_URL ++ js "/images/" ++ shown)
                                   [styles.messageImage] (js "cover"))
                 else Returned (Value hasImage)
             | None => Returned (Value hasImage)
             end = Returned image).
  { destruct hasImage as [[| [] | literal | s | |]|]; simpl in Hp2;
      try contradiction; cbn [ToBoolean];
      try match goal with
          | |- context [if ?c then _ else _] => destruct c
          end;
      eexists; reflexivity. }
  destruct Himage as [image ->]. cbn [and_then].
  assert (Htime : exists time, locale_time e stamp = Returned time).
  { destruct stamp as [[]|]; simpl in Hp5; try contradiction; eexists; reflexivity. }
  destruct Htime as [time Htime]. rewrite Htime.
  assert (Hside : forall side_is_server : bool,
             side_is_server = true \/ side_is_server = false) by (intros []; auto).
  destruct (ToBoolean e message); cbn [and_then];
    do 3 eexists; (split; [reflexivity|]);
    (split;
     [ match goal with
       | |- context [if ?b then _ else _] => destruct b; auto
       end
     | destruct client_id as [[| | | s | |]|]; try (split; intros H; discriminate H);
       destruct (jstring_eqb s (js "server")) eqn:Hs; split; intros H;
       try discriminate H; try reflexivity;
       [ apply jstring_eqb_eq in Hs; now subst
       | injection H as Heq; apply jstring_eqb_eq in Heq; congruence ] ]).
Qed.

Lemma renderMessage_bubble_witness :
  exists side image content,
    renderMessage example_engine
      (JObject [(js "message", JString (js "hello"));
                (js "timestamp", JString (js "2024-01-01T00:00:00Z"))]) 0
    = Returned (View (Some 0%nat) [styles.messageContainer; side] [image; content]) /\
    side = styles.clientMessage.
Proof.
  destruct (renderMessage_bubble example_engine
              (JObject [(js "message", JString (js "hello"));
                        (js "timestamp", JString (js "2024-01-01T00:00:00Z"))])
              0 None (Some (JString (js "2024-01-01T00:00:00Z")))
              eq_refl Logic.I eq_refl Logic.I)
    as [side [image [content [H1 [[H2|H2] H3]]]]].
  - exfalso. apply H3 in H2. discriminate H2.
  - exists side, image, content. split; [exact H1 | exact H2].
Defined.

Lemma renderMessage_key (e : Engine) (msg : json) (index : nat) (node : Node) :
  renderMessage e msg index = Returned node -> key_of node = Some index.
Proof.
  unfold renderMessage. intros H.
  repeat match type of H with
         | and_then ?o _ = _ => destruct o; cbn [and_then] in H; [|discriminate H]
         end.
  injection H as <-. reflexivity.
Qed.

Lemma render_from_nth (e : Engine) (msgs : list json) :
  forall start nodes,
    render_from e start msgs = Returned nodes ->
    length nodes = length msgs /\
    forall i msg,
      nth_error msgs i = Some msg ->
      exists node,
        nth_error nodes i = Some node /\
        renderMessage e msg (start + i) = Returned node.
Proof.
  induction msgs as [|m rest IH]; intros start nodes H; simpl in H.
  - injection H as <-. split; [reflexivity|]. intros [|i] msg Hi; discriminate Hi.
  - destruct (renderMessage e m start) as [node|] eqn:Hn; [|discriminate H].
    cbn [and_then] in H.
    destruct (render_from e (S start) rest) as [ns|] eqn:Hrest; [|discriminate H].
    cbn [and_then] in H. injection H as <-.
    destruct (IH _ _ Hrest) as [Hlen Hnth]. split; [simpl; congruence|].
    intros [|i] msg Hi; simpl in Hi.
    + injection Hi as <-. exists node. rewrite Nat.add_0_r. now split.
    + destruct (Hnth i msg Hi) as [node' [H1 H2]]. exists node'.
      split; [exact H1|]. now rewrite Nat.add_succ_r.
Qed.

(** X15.  What is on the screen is the feed in order of arrival.  After a
    history whose push frames decode to the events E1..En, a render that
    returns has one bubble for each event and no other: the [i]-th bubble
    is [renderMessage] of the [i]-th event that arrived, keyed by [i]. *)
Theorem display_is_arrival_order
    (e : Engine) (history : list (Z * Event)) (events : list json)
    (nodes : list Node) :
  Forall2 decodes (frames history) events ->
  renderMessages e (app (exec boot history)) = Returned nodes ->
  length nodes = length events /\
  forall i event,
    nth_error events i = Some event ->
    exists node,
      nth_error nodes i = Some node /\
      renderMessage e event i = Returned node /\
      key_of node = Some i.
Proof.
  intros Hd Hr. unfold renderMessages in Hr.
  destruct (exec_feed history boot boot_quiet) as [_ Hm].
  rewrite Hm, (pushed_decoded history events Hd) in Hr. simpl in Hr.
  destruct (render_from_nth e events 0 nodes Hr) as [Hlen Hnth].
  split; [exact Hlen|]. intros i event Hi.
  destruct (Hnth i event Hi) as [node [H1 H2]]. simpl in H2.
  exists node. repeat split; auto. now apply (renderMessage_key e event i).
Qed.

Lemma display_is_arrival_order_witness :
  let history :=
    [(10, WsMessage (quoted "{'message':'late','timestamp':'2024-01-02T00:00:00Z'}"));
     (20, PressSend);
     (40, WsMessage (quoted "{'message':'early','timestamp':'2024-01-01T00:00:00Z'}"))] in
  exists nodes node,
    renderMessages example_engine (app (exec boot history)) = Returned nodes /\
    nth_error nodes 1 = Some node /\
    renderMessage example_engine
      (JObject [(js "message", JString (js "early"));
                (js "timestamp", JString (js "2024-01-01T00:00:00Z"))]) 1
    = Returned node.
Proof.
  intros history.
  destruct (renderMessages example_engine (app (exec boot history)))
    as [nodes|] eqn:Hr; [|discriminate Hr].
  destruct (display_is_arrival_order example_engine history
              [JObject [(js "message", JString (js "late"));
                        (js "timestamp", JString (js "2024-01-02T00:00:00Z"))];
               JObject [(js "message", JString (js "early"));
                        (js "timestamp", JString (js "2024-01-01T00:00:00Z"))]]
              nodes ltac:(repeat constructor) Hr) as [_ Hnth].
  destruct (Hnth 1%nat _ eq_refl) as [node [H1 [H2 _]]].
  exists nodes, node. repeat split; auto.
Defined.

(** * Properties of sequences of turns *)

(** The two turns of a send that is accepted. *)
Lemma sendCarNumber_turns (car : jstring) (now : Z) (st : AppState) :
  car <> [] ->
  exists t,
    run now (App.sendCarNumber car) st
    = (st, [Requested (fst (send_request car now)) (snd (send_request car now))],
       Suspended t) /\
    forall (host : Host) (r : Response) now1 st1,
      host _ (fetch (fst (send_request car now)) (snd (send_request car now)))
      = Fulfilled r ->
      ok r = true ->
      resume now1 host t st1
      = (mkApp (messages st1) [] (image st1),
         [Alerted (js "Success") (js "Car number sent successfully")], Finished).
Proof.
  intros Hcar. apply truthy_nonempty in Hcar.
  unfold send_request, App.sendCarNumber. rewrite Hcar. cbn [fst snd].
  run_cbn. eexists. split; [reflexivity|].
  intros host r now1 st1 Hr Hok. run_cbn. rewrite Hr. run_cbn. rewrite Hok.
  reflexivity.
Qed.

Lemma nth_error_last {A : Type} (l : list A) (x : A) :
  nth_error (l ++ [x]) (length l) = Some x.
Proof. induction l as [|y l IH]; simpl; auto. Qed.

Lemma remove_nth_last {A : Type} (l : list A) (x : A) :
  remove_nth (length l) (l ++ [x]) = l.
Proof. induction l as [|y l IH]; simpl; [reflexivity | now rewrite IH]. Qed.

(** X16.  Nothing holds a second press back while a send is in flight: with
    a car number staged, two presses of the send button in a row put two
    requests for the same car number on the network and leave two handlers
    suspended, the state untouched. *)
Theorem second_press_sends_again (sys : System) (now1 now2 : Z) :
  carNumber (app sys) <> [] ->
  let car := carNumber (app sys) in
  exists t1 t2,
    step now2 (step now1 sys PressSend) PressSend
    = mkSystem (app sys) (pending sys ++ [t1; t2])
        (console sys
         ++ [Requested (fst (send_request car now1)) (snd (send_request car now1));
             Requested (fst (send_request car now2)) (snd (send_request car now2))]).
Proof.
  intros Hcar car.
  destruct (sendCarNumber_turns car now1 (app sys) Hcar) as [t1 [H1 _]].
  destruct (sendCarNumber_turns car now2 (app sys) Hcar) as [t2 [H2 _]].
  exists t1, t2.
  assert (E1 : step now1 sys PressSend
               = mkSystem (app sys) (pending sys ++ [t1])
                   (console sys
                    ++ [Requested (fst (send_request car now1))
                                  (snd (send_request car now1))])).
  { rewrite step_PressSend. unfold spawn. fold car. rewrite H1.
    cbn [aftermath]. now rewrite app_nil_r. }
  rewrite E1, step_PressSend. unfold spawn. cbn [app pending console].
  fold car. rewrite H2. cbn [aftermath].
  rewrite !app_nil_r, <- !app_assoc. reflexivity.
Qed.

Lemma second_press_sends_again_witness :
  let sys := exec boot [(1, ChangeText (js "CAR12345"))] in
  exists t1 t2,
    step 3 (step 2 sys PressSend) PressSend
    = mkSystem (app sys) [t1; t2]
        [Requested (fst (send_request (js "CAR12345") 2))
                   (snd (send_request (js "CAR12345") 2));
         Requested (fst (send_request (js "CAR12345") 3))
                   (snd (send_request (js "CAR12345") 3))].
Proof.
  intros sys.
  destruct (second_press_sends_again sys 2 3) as [t1 [t2 H]]; [discriminate|].
  exists t1, t2. exact H.
Defined.

(** X17.  The acknowledgment of a send clears what is in the field when it
    arrives, not what was sent.  A car number is sent, another text is
    typed while the request is in flight, the server answers with a 2xx:
    the field ends up empty, though the request carried the first number
    only. *)
Theorem ack_clears_text_typed_meanwhile
    (sys : System) (now1 now2 now3 : Z) (typed : jstring)
    (host : Host) (r : Response) :
  carNumber (app sys) <> [] ->
  let '(url, init) := send_request (carNumber (app sys)) now1 in
  host _ (fetch url init) = Fulfilled r ->
  ok r = true ->
  let sys1 := step now1 sys PressSend in
  let sys2 := step now2 sys1 (ChangeText typed) in
  let sys3 := step now3 sys2 (Settle (length (pending sys)) host) in
  carNumber (app sys2) = firstn 8 typed /\
  sys3 = mkSystem (mkApp (messages (app sys)) [] (image (app sys)))
                  (pending sys)
                  (console sys
                   ++ [Requested url init;
                       Alerted (js "Success") (js "Car number sent successfully")]).
Proof.
  intros Hcar.
  destruct (sendCarNumber_turns (carNumber (app sys)) now1 (app sys) Hcar)
    as [t [H1 H2]].
  destruct (send_request (carNumber (app sys)) now1) as [url init] eqn:Hreq.
  cbn [fst snd] in H1, H2.
  intros Hr Hok sys1 sys2 sys3.
  assert (E1 : sys1 = mkSystem (app sys) (pending sys ++ [t])
                               (console sys ++ [Requested url init])).
  { subst sys1. rewrite step_PressSend. unfold spawn. rewrite H1.
    cbn [aftermath]. now rewrite app_nil_r. }
  assert (E2 : sys2 = mkSystem (mkApp (messages (app sys)) (firstn 8 typed)
                                      (image (app sys)))
                               (pending sys ++ [t])
                               (console sys ++ [Requested url init])).
  { subst sys2. rewrite E1. unfold step, handlers. cbn [fold_left].
    unfold spawn, App.onChangeText. run_cbn.
    change 8 with (Z.of_nat 8). rewrite slice_prefix.
    cbn [aftermath app pending console messages image]. now rewrite !app_nil_r. }
  split; [rewrite E2; reflexivity|].
  subst sys3. rewrite E2.
  rewrite (step_Settle _ _ _ _ t) by apply nth_error_last.
  cbn [app pending console].
  rewrite (H2 host r now3 _ Hr Hok). cbn [aftermath messages image].
  rewrite remove_nth_last, !app_nil_r, <- app_assoc. reflexivity.
Qed.

Lemma ack_clears_text_typed_meanwhile_witness :
  let sys := exec boot [(1, ChangeText (js "CAR12345"))] in
  let host := host_of (Fulfilled (mkResponse 200 [])) (js "granted") (mkPicked true []) in
  carNumber (app (step 3 (step 2 sys PressSend) (ChangeText (js "XYZ9")))) = js "XYZ9" /\
  step 4 (step 3 (step 2 sys PressSend) (ChangeText (js "XYZ9"))) (Settle 0 host)
  = mkSystem (mkApp [] [] None) []
      [Requested (fst (send_request (js "CAR12345") 2))
                 (snd (send_request (js "CAR12345") 2));
       Alerted (js "Success") (js "Car number sent successfully")].
Proof.
  intros sys host.
  apply (ack_clears_text_typed_meanwhile sys 2 3 4 (js "XYZ9") host
           (mkResponse 200 [])).
  - discriminate.
  - reflexivity.
  - reflexivity.
Defined.

(** ** The channel is opened by the mount and by nothing else *)

Lemma offline_requestPermissions : offline App.requestPermissions.
Proof. unfold offline, App.requestPermissions. offline_all. Qed.

Lemma offline_pickImage : offline App.pickImage.
Proof. unfold offline, App.pickImage. offline_all. Qed.

Lemma offline_takePhoto : offline App.takePhoto.
Proof. unfold offline, App.takePhoto. offline_all. Qed.

Lemma offline_uploadImage (img : option jstring) (car : jstring) :
  offline (App.uploadImage img car).
Proof. unfold offline, App.uploadImage. offline_all. Qed.

Lemma offline_sendCarNumber (car : jstring) : offline (App.sendCarNumber car).
Proof. unfold offline, App.sendCarNumber. offline_all. Qed.

Lemma offline_onmessage (data : jstring) : offline (App.onmessage data).
Proof. unfold offline, App.onmessage, JSON_parse. offline_all. Qed.

Lemma connections_app (a b : list Output) :
  connections (a ++ b) = connections a ++ connections b.
Proof. unfold connections. apply filter_app. Qed.

Lemma no_connections (out : list Output) :
  Forall no_connection out -> connections out = [].
Proof.
  induction 1 as [|o out Ho _ IH]; [reflexivity|].
  unfold connections in *. simpl. unfold no_connection in Ho. now rewrite Ho.
Qed.

Lemma spawn_offline (now : Z) (sys : System) (p : Prog unit) :
  offline p -> offline_system sys ->
  offline_system (spawn now sys p) /\
  connections (console (spawn now sys p)) = connections (console sys).
Proof.
  intros Hp Hs. unfold spawn.
  destruct (run_guarded _ _ _ now p Hp (app sys) Logic.I) as [_ [Hout Ht]].
  destruct (run now p (app sys)) as [[st out] s]. simpl in *.
  destruct s as [| e | t]; simpl; unfold offline_system; simpl;
    rewrite !connections_app, (no_connections out Hout); simpl;
    rewrite ?app_nil_r; split; auto.
  apply Forall_app. split; [exact Hs | now constructor].
Qed.

Lemma spawn_all_offline (now : Z) (ps : list (Prog unit)) :
  Forall offline ps ->
  forall sys, offline_system sys ->
    offline_system (fold_left (spawn now) ps sys) /\
    connections (console (fold_left (spawn now) ps sys)) = connections (console sys).
Proof.
  induction 1 as [|p ps Hp Hps IH]; intros sys Hs; simpl; auto.
  destruct (spawn_offline now sys p Hp Hs) as [Hs' Hc].
  destruct (IH _ Hs') as [Hs2 Hc2]. split; congruence.
Qed.

Lemma spawn_connect (now : Z) (sys : System) :
  spawn now sys App.connect
  = mkSystem (app sys) (pending sys) (console sys ++ [Connected WS_URL]).
Proof. unfold spawn. simpl. now rewrite app_nil_r. Qed.

Lemma step_connections (now : Z) (sys : System) (ev : Event) :
  offline_system sys ->
  offline_system (step now sys ev) /\
  connections (console (step now sys ev))
  = connections (console sys) ++ opened_by ev.
Proof.
  intros Hs.
  assert (Hall : forall ps, Forall offline ps ->
            offline_system (fold_left (spawn now) ps sys) /\
            connections (console (fold_left (spawn now) ps sys))
            = connections (console sys) ++ []).
  { intros ps Hps. rewrite app_nil_r. now apply spawn_all_offline. }
  destruct ev; unfold step, handlers, opened_by;
    try solve
      [ apply Hall; repeat apply Forall_cons; try apply Forall_nil;
        auto using offline_pickImage, offline_takePhoto, offline_sendCarNumber,
          offline_onmessage;
        unfold offline, App.cleanup, App.onopen, App.onerror, App.onclose,
          App.onChangeText; offline_all ].
  - (* Mount *)
    cbn [fold_left].
    destruct (spawn_offline now sys _ offline_requestPermissions Hs) as [Hs1 Hc1].
    rewrite spawn_connect. unfold offline_system. cbn [pending console].
    rewrite connections_app, Hc1. split; [exact Hs1 | reflexivity].
  - (* PressUpload *)
    apply Hall. destruct (truthy_opt (image (app sys)));
      repeat apply Forall_cons; try apply Forall_nil.
    apply offline_uploadImage.
  - (* Settle *)
    rewrite app_nil_r.
    destruct (nth_error (pending sys) i) as [[T c k]|] eqn:Hi; [|auto].
    assert (Hk : offline (k (settle host c))).
    { unfold offline_system in Hs. rewrite Forall_forall in Hs.
      apply (Hs (task c k)). eapply nth_error_In; eauto. }
    destruct (spawn_offline now
                (mkSystem (app sys) (remove_nth i (pending sys)) (console sys))
                (k (settle host c)) Hk) as [H1 H2].
    { unfold offline_system. simpl. apply remove_nth_Forall. exact Hs. }
    split; [exact H1 | exact H2].
Qed.

(** X18.  The channel is opened once for each mount, to [WS_URL], and never
    again: no error, no close, no failed request and no gesture makes the
    component reconnect. *)
Theorem connects_only_on_mount (history : list (Z * Event)) :
  connections (console (exec boot history))
  = flat_map (fun te => opened_by (snd te)) history.
Proof.
  assert (H : forall h sys, offline_system sys ->
            offline_system (exec sys h) /\
            connections (console (exec sys h))
            = connections (console sys) ++ flat_map (fun te => opened_by (snd te)) h).
  { unfold exec. induction h as [|[now ev] h IH]; intros sys Hs; simpl.
    - now rewrite app_nil_r.
    - destruct (step_connections now sys ev Hs) as [Hs1 Hc1].
      destruct (IH _ Hs1) as [Hs2 Hc2]. split; [assumption|].
      rewrite Hc2, Hc1. now rewrite app_assoc. }
  destruct (H history boot) as [_ Hc]; [constructor|]. exact Hc.
Qed.
